(** * PDF Tools front end: navigation synchronisation and form submission

    A shallow embedding of [App.jsx], [CustomNavBar.jsx] and [CardGrid.jsx].

    React state cells become record fields, event handlers become functions
    on the record, and the [useEffect] of [GenerateCardGrid] becomes a
    function that the commit of a render runs exactly when its dependency
    array [[forcedFormTitle]] differs from the one recorded by the previous
    commit.  The asynchronous submit handlers of the forms are cut at their
    single [await]: the part before it returns the request it issues, the
    part after it consumes the response. *)

From Stdlib Require Import String List Bool Arith Lia.
Import ListNotations.
Open Scope string_scope.

(* ------------------------------------------------------------------ *)
(** ** Navigation: [App], [CustomNavBar], [GenerateCardGrid]           *)
(* ------------------------------------------------------------------ *)
Module Nav.

(** The destinations offered by [CustomNavBar]. *)
Inductive ViewKey := HOME | UPLOAD | DOWNLOAD | MERGE | SPLIT.

(** The string literal each navbar entry passes to [go]. *)
Definition key_name (k : ViewKey) : string :=
  match k with
  | HOME => "HOME"
  | UPLOAD => "UPLOAD"
  | DOWNLOAD => "DOWNLOAD"
  | MERGE => "MERGE"
  | SPLIT => "SPLIT"
  end.

Definition all_keys : list ViewKey := [HOME; UPLOAD; DOWNLOAD; MERGE; SPLIT].

(** An entry of [menuCards].  The [icon] field is a JSX element that the
    navigation logic never reads; it is left out. *)
Record Card := mkCard {
  id : nat;
  title : string;
  description : string
}.

Definition cardDOWNLOAD : Card :=
  mkCard 1 "DOWNLOAD" "Baixe um PDF existente pelo UUID.".
Definition cardUPLOAD : Card :=
  mkCard 2 "UPLOAD" "Envie um PDF e gere UUID.".
Definition cardMERGE : Card :=
  mkCard 3 "MERGE" "Mescle dois PDFs em um único arquivo.".
Definition cardSPLIT : Card :=
  mkCard 4 "SPLIT" "Extraia páginas específicas de um PDF.".

Definition menuCards : list Card :=
  [cardDOWNLOAD; cardUPLOAD; cardMERGE; cardSPLIT].

(** The keys of [formByTitle]. *)
Definition formByTitle_keys : list string :=
  ["UPLOAD"; "DOWNLOAD"; "MERGE"; "SPLIT"].

(** [forcedFormTitle] is [null] or a string.  JavaScript truthiness of
    such a value: [null] and the empty string are falsy. *)
Definition truthy (v : option string) : bool :=
  match v with
  | None => false
  | Some s => negb (s =? "")
  end.

(** [Object.is] on two such values, as React compares dependencies. *)
Definition same_value (a b : option string) : bool :=
  match a, b with
  | None, None => true
  | Some x, Some y => x =? y
  | _, _ => false
  end.

(** [c.title === forcedFormTitle]. *)
Definition title_is (v : option string) (c : Card) : bool :=
  match v with
  | Some t => title c =? t
  | None => false
  end.

(** The state cells of [App] and [GenerateCardGrid], the dependency array
    recorded by the last run of the effect ([None] before the first
    commit), and the log of the calls of [onFormOpenChange], oldest
    first ([true] is "open", [false] is "closed"). *)
Record World := mkWorld {
  formOpen : bool;
  forceTitle : option string;
  selected : option Card;
  effectDeps : option (option string);
  emissions : list bool
}.

Definition setFormOpen (b : bool) (w : World) : World :=
  mkWorld b (forceTitle w) (selected w) (effectDeps w) (emissions w).

Definition setForceTitle (v : option string) (w : World) : World :=
  mkWorld (formOpen w) v (selected w) (effectDeps w) (emissions w).

Definition setSelected (c : option Card) (w : World) : World :=
  mkWorld (formOpen w) (forceTitle w) c (effectDeps w) (emissions w).

Definition recordDeps (w : World) : World :=
  mkWorld (formOpen w) (forceTitle w) (selected w)
          (Some (forceTitle w)) (emissions w).

(** [onFormOpenChange?.(b)]: [App] passes [setFormOpen]. *)
Definition onFormOpenChange (b : bool) (w : World) : World :=
  setFormOpen b
    (mkWorld (formOpen w) (forceTitle w) (selected w) (effectDeps w)
             (emissions w ++ [b])).

(** [App.handleNavigate]. *)
Definition handleNavigate (key : string) (w : World) : World :=
  if key =? "HOME"
  then setFormOpen false (setForceTitle None w)
  else setForceTitle (Some key) w.

(** [menuCards.find((c) => c.title === forcedFormTitle)]. *)
Definition find_forced (v : option string) : option Card :=
  find (title_is v) menuCards.

(** The body of the [useEffect] of [GenerateCardGrid]; [forcedFormTitle]
    is the prop [App] passes, its [forceTitle]. *)
Definition syncEffect (w : World) : World :=
  if truthy (forceTitle w) then
    match find_forced (forceTitle w) with
    | Some card => onFormOpenChange true (setSelected (Some card) w)
    | None => w
    end
  else
    match selected w with
    | Some _ => onFormOpenChange false (setSelected None w)
    | None => w
    end.

Definition deps_changed (prev : option (option string))
                        (cur : option string) : bool :=
  match prev with
  | None => true
  | Some p => negb (same_value p cur)
  end.

(** One render and commit: the effect runs when [[forcedFormTitle]]
    differs from the recorded dependencies, and sees the [selected] of
    that render. *)
Definition commit (w : World) : World :=
  if deps_changed (effectDeps w) (forceTitle w)
  then syncEffect (recordDeps w)
  else w.

(** [GenerateCardGrid.openCard] and [GenerateCardGrid.back]. *)
Definition openCard (card : Card) (w : World) : World :=
  onFormOpenChange true (setSelected (Some card) w).

Definition back (w : World) : World :=
  onFormOpenChange false (setSelected None w).

(** User events: a click in the navbar, on a card of [GridMenu], on
    [BackBtn]. *)
Inductive event :=
| Navigate (key : string)
| OpenDirect (card : Card)
| Back.

Definition select (k : ViewKey) : event := Navigate (key_name k).

Definition handle (e : event) (w : World) : World :=
  match e with
  | Navigate key => handleNavigate key w
  | OpenDirect card => openCard card w
  | Back => back w
  end.

(** An event, then the render it causes. *)
Definition step (e : event) (w : World) : World := commit (handle e w).

Definition run (es : list event) (w : World) : World :=
  fold_left (fun acc e => step e acc) es w.

Definition unmounted : World := mkWorld false None None None [].

(** The state after the first render. *)
Definition init : World := commit unmounted.

Definition card_eqb (a b : Card) : bool :=
  (id a =? id b)%nat && (title a =? title b) && (description a =? description b).

(** What the rendered page offers: the navbar always; [GridMenu] (one
    [IconCard] per entry of [menuCards]) when [selected] is falsy; the
    form and its [BackBtn] otherwise. *)
Definition enabled (e : event) (w : World) : bool :=
  match e with
  | Navigate key => existsb (fun k => key_name k =? key) all_keys
  | OpenDirect card =>
      match selected w with
      | None => existsb (card_eqb card) menuCards
      | Some _ => false
      end
  | Back =>
      match selected w with
      | None => false
      | Some c => existsb (String.eqb (title c)) formByTitle_keys
      end
  end.

Inductive reachable : World -> Prop :=
| reach_init : reachable init
| reach_step e w :
    reachable w -> enabled e w = true -> reachable (step e w).

(** Every render has been committed: the recorded dependencies are the
    current signal. *)
Definition settled (w : World) : Prop :=
  effectDeps w = Some (forceTitle w).

(** The latest key of a sequence of selections. *)
Definition latest (ks : list ViewKey) : option ViewKey := hd_error (rev ks).

(** The signal [handleNavigate] leaves for a navbar key. *)
Definition signal_of (k : ViewKey) : option string :=
  forceTitle (handleNavigate (key_name k) unmounted).

(** A form is on screen: [if (selected)] in the render. *)
Definition is_open (w : World) : bool :=
  match selected w with Some _ => true | None => false end.

(** The parent's flag says what the Form Host shows. *)
Definition mirrored (w : World) : Prop := formOpen w = is_open w.

(** The Form Host shows what the signal resolves to. *)
Definition follows_signal (w : World) : Prop :=
  selected w = find_forced (forceTitle w).

(** The emissions of [w'] that [w] did not have yet. *)
Definition emitted (w w' : World) : list bool :=
  skipn (length (emissions w)) (emissions w').

End Nav.

(* ------------------------------------------------------------------ *)
(** ** The four forms of [CardGrid.jsx]                                 *)
(* ------------------------------------------------------------------ *)
Module Forms.

(** A [File] picked in a file control; only its identity matters. *)
Record File := mkFile { file_name : string }.

(** The calls made on the axios instance [api]. *)
Inductive request :=
| PostUpload (file : File)
| PostMerge (file1 file2 : File)
| PostExtract (file : File) (range : string)
| GetDownload (uuid : string).

(** What the [await] yields: the promise resolves with a body ([data.uuid]
    for the three POST operations, the PDF content for the download), or
    rejects with an error whose [response?.data?.detail] may be missing. *)
Inductive response :=
| Resolved (data : string)
| Rejected (detail : option string).

(** [detail || fallback] on a string that may be missing. *)
Definition or_else (detail : option string) (fallback : string) : string :=
  match detail with
  | Some d => if d =? "" then fallback else d
  | None => fallback
  end.

(** [{text && <Alert>...</Alert>}]: the alert is rendered when the string
    is not empty. *)
Definition alert (text : string) : option string :=
  if text =? "" then None else Some text.

Module UploadForm.
Record State := mk {
  file : option File;
  uuid : string;
  err : string;
  loading : bool
}.
Definition initial : State := mk None "" "" false.

Definition setFile v s := mk v (uuid s) (err s) (loading s).
Definition setUuid v s := mk (file s) v (err s) (loading s).
Definition setErr v s := mk (file s) (uuid s) v (loading s).
Definition setLoading v s := mk (file s) (uuid s) (err s) v.

(** [handleSubmit] up to its [await]. *)
Definition handleSubmit (s : State) : State * option request :=
  let s := setErr "" s in
  let s := setUuid "" s in
  match file s with
  | None => (setErr "Selecione um PDF" s, None)
  | Some f => (setLoading true s, Some (PostUpload f))
  end.

(** [handleSubmit] after its [await]: [try] tail or [catch], then
    [finally]. *)
Definition handleSubmit_resume (r : response) (s : State) : State :=
  setLoading false
    match r with
    | Resolved data => setUuid data s
    | Rejected detail => setErr (or_else detail "Erro no upload") s
    end.

Definition success_alert (s : State) : option string := alert (uuid s).
Definition danger_alert (s : State) : option string := alert (err s).
End UploadForm.

Module MergeForm.
Record State := mk {
  file1 : option File;
  file2 : option File;
  uuid : string;
  err : string;
  loading : bool
}.
Definition initial : State := mk None None "" "" false.

Definition setFile1 v s := mk v (file2 s) (uuid s) (err s) (loading s).
Definition setFile2 v s := mk (file1 s) v (uuid s) (err s) (loading s).
Definition setUuid v s := mk (file1 s) (file2 s) v (err s) (loading s).
Definition setErr v s := mk (file1 s) (file2 s) (uuid s) v (loading s).
Definition setLoading v s := mk (file1 s) (file2 s) (uuid s) (err s) v.

Definition submit (s : State) : State * option request :=
  let s := setErr "" s in
  let s := setUuid "" s in
  match file1 s, file2 s with
  | Some f1, Some f2 => (setLoading true s, Some (PostMerge f1 f2))
  | _, _ => (setErr "Selecione os dois PDFs" s, None)
  end.

Definition submit_resume (r : response) (s : State) : State :=
  setLoading false
    match r with
    | Resolved data => setUuid data s
    | Rejected detail => setErr (or_else detail "Erro ao mesclar") s
    end.

Definition success_alert (s : State) : option string := alert (uuid s).
Definition danger_alert (s : State) : option string := alert (err s).
End MergeForm.

Module SplitForm.
Record State := mk {
  file : option File;
  range : string;
  uuid : string;
  err : string;
  loading : bool
}.
Definition initial : State := mk None "" "" "" false.

Definition setFile v s := mk v (range s) (uuid s) (err s) (loading s).
Definition setRange v s := mk (file s) v (uuid s) (err s) (loading s).
Definition setUuid v s := mk (file s) (range s) v (err s) (loading s).
Definition setErr v s := mk (file s) (range s) (uuid s) v (loading s).
Definition setLoading v s := mk (file s) (range s) (uuid s) (err s) v.

Definition submit (s : State) : State * option request :=
  let s := setErr "" s in
  let s := setUuid "" s in
  match file s with
  | Some f =>
      if range s =? ""
      then (setErr "Arquivo e intervalo obrigatórios" s, None)
      else (setLoading true s, Some (PostExtract f (range s)))
  | None => (setErr "Arquivo e intervalo obrigatórios" s, None)
  end.

Definition submit_resume (r : response) (s : State) : State :=
  setLoading false
    match r with
    | Resolved data => setUuid data s
    | Rejected detail => setErr (or_else detail "Erro ao extrair") s
    end.

Definition success_alert (s : State) : option string := alert (uuid s).
Definition danger_alert (s : State) : option string := alert (err s).
End SplitForm.

Module DownloadForm.
(** Here [uuid] is the text control, not a result. *)
Record State := mk {
  uuid : string;
  err : string;
  loading : bool
}.
Definition initial : State := mk "" "" false.

Definition setUuid v s := mk v (err s) (loading s).
Definition setErr v s := mk (uuid s) v (loading s).
Definition setLoading v s := mk (uuid s) (err s) v.

Definition submit (s : State) : State * option request :=
  let s := setErr "" s in
  if uuid s =? ""
  then (setErr "Informe o UUID" s, None)
  else (setLoading true s, Some (GetDownload (uuid s))).

(** After the [await]: on success the link [`${uuid}.pdf`] is clicked,
    with the [uuid] the handler closed over when it was called; the
    second component lists the downloads offered to the user.  The GET is
    made with [responseType: "blob"], so the body of an error response
    reaches the [catch] as a Blob: [e.response?.data?.detail] is
    [undefined] whatever the service sent, as it is when there is no
    response at all. *)
Definition submit_resume (asked : string) (r : response) (s : State)
  : State * list string :=
  match r with
  | Resolved _ => (setLoading false s, [asked ++ ".pdf"])
  | Rejected _ =>
      (setLoading false (setErr (or_else None "UUID não encontrado") s), [])
  end.

(** The component renders no success alert. *)
Definition success_alert (s : State) : option string := None.
Definition danger_alert (s : State) : option string := alert (err s).
End DownloadForm.

(** The component [formByTitle] picks, with its state. *)
Inductive Form :=
| Upload (s : UploadForm.State)
| Download (s : DownloadForm.State)
| Merge (s : MergeForm.State)
| Split (s : SplitForm.State).

(** The keys of [formByTitle]. *)
Inductive Kind := KUpload | KDownload | KMerge | KSplit.

Definition fresh (k : Kind) : Form :=
  match k with
  | KUpload => Upload UploadForm.initial
  | KDownload => Download DownloadForm.initial
  | KMerge => Merge MergeForm.initial
  | KSplit => Split SplitForm.initial
  end.

Definition kind_of (f : Form) : Kind :=
  match f with
  | Upload _ => KUpload
  | Download _ => KDownload
  | Merge _ => KMerge
  | Split _ => KSplit
  end.

(** [disabled={loading}] on the submit button. *)
Definition submit_disabled (f : Form) : bool :=
  match f with
  | Upload s => UploadForm.loading s
  | Download s => DownloadForm.loading s
  | Merge s => MergeForm.loading s
  | Split s => SplitForm.loading s
  end.

(** The [onSubmit] handler of the form, up to its [await]. *)
Definition on_submit (f : Form) : Form * option request :=
  match f with
  | Upload s => let (s', q) := UploadForm.handleSubmit s in (Upload s', q)
  | Download s => let (s', q) := DownloadForm.submit s in (Download s', q)
  | Merge s => let (s', q) := MergeForm.submit s in (Merge s', q)
  | Split s => let (s', q) := SplitForm.submit s in (Split s', q)
  end.

(** The rest of the handler, when the request [q] it issued settles. *)
Definition on_settle (q : request) (r : response) (f : Form)
  : Form * list string :=
  match f with
  | Upload s => (Upload (UploadForm.handleSubmit_resume r s), [])
  | Download s =>
      let asked := match q with GetDownload u => u | _ => DownloadForm.uuid s end in
      let (s', files) := DownloadForm.submit_resume asked r s in
      (Download s', files)
  | Merge s => (Merge (MergeForm.submit_resume r s), [])
  | Split s => (Split (SplitForm.submit_resume r s), [])
  end.

(** The two alerts under the form: (success, danger). *)
Definition success_alert (f : Form) : option string :=
  match f with
  | Upload s => UploadForm.success_alert s
  | Download s => DownloadForm.success_alert s
  | Merge s => MergeForm.success_alert s
  | Split s => SplitForm.success_alert s
  end.

Definition danger_alert (f : Form) : option string :=
  match f with
  | Upload s => UploadForm.danger_alert s
  | Download s => DownloadForm.danger_alert s
  | Merge s => MergeForm.danger_alert s
  | Split s => SplitForm.danger_alert s
  end.

Definition shown (a : option string) : bool :=
  match a with Some _ => true | None => false end.

(** The [onChange] handlers of the controls: the [n]-th file control of
    the form, and its text control. *)
Definition choose_file (n : nat) (v : option File) (f : Form) : Form :=
  match f, n with
  | Upload s, 0 => Upload (UploadForm.setFile v s)
  | Merge s, 0 => Merge (MergeForm.setFile1 v s)
  | Merge s, 1 => Merge (MergeForm.setFile2 v s)
  | Split s, 0 => Split (SplitForm.setFile v s)
  | _, _ => f
  end.

Definition type_text (v : string) (f : Form) : Form :=
  match f with
  | Split s => Split (SplitForm.setRange v s)
  | Download s => Download (DownloadForm.setUuid v s)
  | _ => f
  end.

(** A mounted form with the requests it has in flight (oldest first), all
    the requests it ever issued, and the downloads it offered. *)
Record Mounted := mkMounted {
  form : Form;
  pending : list request;
  issued : list request;
  saved : list string
}.

Definition mount (k : Kind) : Mounted := mkMounted (fresh k) [] [] [].

(** What the page and the network do to a mounted form. *)
Inductive event :=
| ClickSubmit
| ChooseFile (n : nat) (v : option File)
| TypeText (v : string)
| Settle (r : response).

(** A click on the submit button: a disabled button dispatches no submit
    event, an enabled one runs the handler up to its [await]. *)
Definition click_submit (m : Mounted) : Mounted :=
  if submit_disabled (form m) then m
  else
    let (f', q) := on_submit (form m) in
    match q with
    | Some rq => mkMounted f' (pending m ++ [rq]) (issued m ++ [rq]) (saved m)
    | None => mkMounted f' (pending m) (issued m) (saved m)
    end.

(** The oldest request in flight settles and its handler resumes. *)
Definition settle (r : response) (m : Mounted) : Mounted :=
  match pending m with
  | [] => m
  | q :: rest =>
      let (f', files) := on_settle q r (form m) in
      mkMounted f' rest (issued m) (saved m ++ files)
  end.

Definition step (e : event) (m : Mounted) : Mounted :=
  match e with
  | ClickSubmit => click_submit m
  | ChooseFile n v => mkMounted (choose_file n v (form m)) (pending m) (issued m) (saved m)
  | TypeText v => mkMounted (type_text v (form m)) (pending m) (issued m) (saved m)
  | Settle r => settle r m
  end.

Definition run (es : list event) (m : Mounted) : Mounted :=
  fold_left (fun acc e => step e acc) es m.

(** What every reachable state of a mounted form satisfies: the button is
    disabled exactly while one request is in flight, never more than one
    is, both alerts are down during the flight, and never both are up. *)
Definition steady (m : Mounted) : Prop :=
  submit_disabled (form m)
  = match pending m with [] => false | _ :: _ => true end /\
  length (pending m) <= 1 /\
  (submit_disabled (form m) = true ->
     success_alert (form m) = None /\ danger_alert (form m) = None) /\
  shown (success_alert (form m)) && shown (danger_alert (form m)) = false.

End Forms.

(* ------------------------------------------------------------------ *)
(** ** What is rendered: [App], [CustomNavBar], [GenerateCardGrid]     *)
(* ------------------------------------------------------------------ *)
Module Page.
Import Nav.

(** The clickable entries of [CustomNavBar] in document order, each with
    the key its [onClick] passes to [go]; the first is the brand icon. *)
Definition navbar_entries : list (string * string) :=
  [("brand", "HOME"); ("Home", "HOME"); ("Gerar Link", "UPLOAD");
   ("Usar Link", "DOWNLOAD"); ("Download", "DOWNLOAD"); ("Upload", "UPLOAD");
   ("Merge", "MERGE"); ("Split", "SPLIT")].

(** [formByTitle[title]] on the object's own keys.  A title that names a
    member of [Object.prototype] would find that member instead; no card
    of [menuCards] has such a title. *)
Definition formByTitle (t : string) : option Forms.Kind :=
  if t =? "UPLOAD" then Some Forms.KUpload
  else if t =? "DOWNLOAD" then Some Forms.KDownload
  else if t =? "MERGE" then Some Forms.KMerge
  else if t =? "SPLIT" then Some Forms.KSplit
  else None.

(** What [GenerateCardGrid] returns: the form [Comp] of the selected card,
    or [GridMenu] over [menuCards]; an element whose type is [undefined]
    cannot be rendered. *)
Inductive Body :=
| GridMenu (cards : list Card)
| FormView (comp : Forms.Kind) (card : Card)
| Broken.

Definition GenerateCardGrid_render (w : World) : Body :=
  match selected w with
  | Some card =>
      match formByTitle (title card) with
      | Some comp => FormView comp card
      | None => Broken
      end
  | None => GridMenu menuCards
  end.

(** What [App] returns: the hero text under [!formOpen], then the grid. *)
Record Screen := mkScreen {
  hero : bool;
  body : Body
}.

Definition App_render (w : World) : Screen :=
  mkScreen (negb (formOpen w)) (GenerateCardGrid_render w).

(** The fallback message of each form's [catch]. *)
Definition fallback (k : Forms.Kind) : string :=
  match k with
  | Forms.KUpload => "Erro no upload"
  | Forms.KDownload => "UUID não encontrado"
  | Forms.KMerge => "Erro ao mesclar"
  | Forms.KSplit => "Erro ao extrair"
  end.

(** The call each form makes on [api], with what its validation lets
    through: a range and a UUID that are not empty. *)
Definition request_fits (k : Forms.Kind) (q : Forms.request) : bool :=
  match k, q with
  | Forms.KUpload, Forms.PostUpload _ => true
  | Forms.KMerge, Forms.PostMerge _ _ => true
  | Forms.KSplit, Forms.PostExtract _ range => negb (range =? "")
  | Forms.KDownload, Forms.GetDownload uuid => negb (uuid =? "")
  | _, _ => false
  end.

(** The selected card, if any, is an entry of [menuCards]. *)
Definition shows_menu_card (w : World) : Prop :=
  match selected w with Some c => In c menuCards | None => True end.

End Page.

(* ------------------------------------------------------------------ *)
(** ** Properties of the navigation synchronisation                    *)
(* ------------------------------------------------------------------ *)
Section NavFacts.
Import Nav.
Local Open Scope list_scope.

Lemma same_value_refl (v : option string) : same_value v v = true.
Proof. destruct v as [s|]; simpl; [apply String.eqb_refl | reflexivity]. Qed.

Lemma same_value_eq (a b : option string) : same_value a b = true -> a = b.
Proof.
  destruct a as [x|], b as [y|]; simpl; try discriminate; try reflexivity.
  intros H. apply String.eqb_eq in H. now subst.
Qed.

(** The effect touches neither the signal nor the recorded dependencies. *)
Lemma syncEffect_signal (w : World) :
  forceTitle (syncEffect w) = forceTitle w /\
  effectDeps (syncEffect w) = effectDeps w.
Proof.
  unfold syncEffect.
  destruct (truthy (forceTitle w)).
  - destruct (find_forced (forceTitle w)); simpl; auto.
  - destruct (selected w); simpl; auto.
Qed.

Lemma commit_settled (w : World) : settled w -> commit w = w.
Proof.
  unfold settled, commit, deps_changed. intros ->.
  now rewrite same_value_refl.
Qed.

Lemma settled_commit (w : World) : settled (commit w).
Proof.
  unfold settled, commit, deps_changed.
  destruct (effectDeps w) as [p|] eqn:E.
  - destruct (same_value p (forceTitle w)) eqn:S; simpl.
    + apply same_value_eq in S. now rewrite E, S.
    + destruct (syncEffect_signal (recordDeps w)) as [-> ->]. reflexivity.
  - destruct (syncEffect_signal (recordDeps w)) as [-> ->]. reflexivity.
Qed.

(** A second render with the same signal does nothing: one pass settles
    the page. *)
Lemma commit_idempotent (w : World) : commit (commit w) = commit w.
Proof. apply commit_settled, settled_commit. Qed.

Lemma settled_step (e : event) (w : World) : settled (step e w).
Proof. apply settled_commit. Qed.

Lemma settled_init : settled init.
Proof. apply settled_commit. Qed.

Lemma reachable_settled (w : World) : reachable w -> settled w.
Proof. destruct 1; [apply settled_init | apply settled_step]. Qed.

Lemma run_snoc (es : list event) (e : event) (w : World) :
  run (es ++ [e]) w = step e (run es w).
Proof. unfold run. now rewrite fold_left_app. Qed.

Lemma settled_run (es : list event) (w : World) :
  settled w -> settled (run es w).
Proof.
  intros H. destruct es as [|e es] using rev_ind; [exact H|].
  rewrite run_snoc. apply settled_step.
Qed.

(** *** How one navigation step acts *)

Lemma handle_navigate_emissions (key : string) (w : World) :
  emissions (handleNavigate key w) = emissions w /\
  selected (handleNavigate key w) = selected w /\
  effectDeps (handleNavigate key w) = effectDeps w.
Proof. unfold handleNavigate. destruct (key =? "HOME"); simpl; auto. Qed.

Lemma step_navigate_signal (key : string) (w : World) :
  forceTitle (step (Navigate key) w)
  = if key =? "HOME" then None else Some key.
Proof.
  unfold step, commit; simpl handle.
  assert (E : forceTitle (handleNavigate key w)
              = if key =? "HOME" then None else Some key).
  { unfold handleNavigate. now destruct (key =? "HOME"). }
  destruct (deps_changed _ _); [|exact E].
  destruct (syncEffect_signal (recordDeps (handleNavigate key w))) as [-> _].
  exact E.
Qed.

(** A render emits at most once. *)
Lemma commit_emits (w : World) :
  exists l, emissions (commit w) = emissions w ++ l /\ length l <= 1.
Proof.
  unfold commit. destruct (deps_changed _ _).
  - unfold syncEffect. simpl.
    destruct (truthy (forceTitle w)).
    + destruct (find_forced (forceTitle w)); simpl.
      * exists [true]; simpl; auto.
      * exists []; rewrite app_nil_r; simpl; auto.
    + destruct (selected w); simpl.
      * exists [false]; simpl; auto.
      * exists []; rewrite app_nil_r; simpl; auto.
  - exists []; rewrite app_nil_r; simpl; auto.
Qed.

(** Selecting the key the signal already holds changes nothing. *)
Lemma navigate_same_signal (key : string) (w : World) :
  settled w -> (key =? "HOME") = false -> forceTitle w = Some key ->
  step (Navigate key) w = w.
Proof.
  intros Hs Hk Hf. unfold step; simpl handle.
  assert (E : handleNavigate key w = w).
  { unfold handleNavigate. rewrite Hk. destruct w; simpl in *. now subst. }
  rewrite E. now apply commit_settled.
Qed.

(** Selecting HOME on the idle page changes nothing. *)
Lemma navigate_home_idle (w : World) :
  settled w -> forceTitle w = None -> formOpen w = false ->
  step (Navigate "HOME") w = w.
Proof.
  intros Hs Hf Ho. unfold step; simpl handle.
  assert (E : handleNavigate "HOME" w = w).
  { unfold handleNavigate; simpl. destruct w; simpl in *. now subst. }
  rewrite E. now apply commit_settled.
Qed.

Lemma step_home_closed (w : World) :
  formOpen (step (Navigate "HOME") w) = false.
Proof.
  unfold step, commit; simpl handle.
  change (handleNavigate "HOME" w)
    with (setFormOpen false (setForceTitle None w)).
  destruct (deps_changed _ _); [|reflexivity].
  unfold syncEffect; simpl. now destruct (selected w).
Qed.

(** The second of two equal selections is inert, whatever the key. *)
Lemma navigate_twice (key : string) (w : World) :
  step (Navigate key) (step (Navigate key) w) = step (Navigate key) w.
Proof.
  destruct (key =? "HOME") eqn:Hk.
  - apply String.eqb_eq in Hk; subst key.
    apply navigate_home_idle.
    + apply settled_step.
    + now rewrite step_navigate_signal.
    + apply step_home_closed.
  - apply navigate_same_signal; [apply settled_step | exact Hk |].
    now rewrite step_navigate_signal, Hk.
Qed.

Lemma step_navigate_emits (key : string) (w : World) :
  exists l, emissions (step (Navigate key) w) = emissions w ++ l
            /\ length l <= 1.
Proof.
  unfold step; simpl handle.
  destruct (commit_emits (handleNavigate key w)) as (l & E & L).
  exists l. split; [|exact L].
  rewrite E. now destruct (handle_navigate_emissions key w) as [-> _].
Qed.

(** A signal that resolves opens its card, with one "open". *)
Lemma navigate_new_signal (k : ViewKey) (w : World) :
  settled w -> k <> HOME -> forceTitle w <> Some (key_name k) ->
  exists c,
    find_forced (Some (key_name k)) = Some c /\ title c = key_name k /\
    selected (step (select k) w) = Some c /\
    formOpen (step (select k) w) = true /\
    emissions (step (select k) w) = emissions w ++ [true].
Proof.
  intros Hs Hk Hf. destruct w as [fo ft se ed em].
  unfold settled in Hs; simpl in *. subst ed.
  assert (D : same_value ft (Some (key_name k)) = false).
  { destruct (same_value ft (Some (key_name k))) eqn:S; [|reflexivity].
    apply same_value_eq in S. contradiction. }
  destruct k; try congruence;
    unfold step, select, commit, deps_changed; simpl;
    simpl in D; rewrite D; simpl;
    eexists; repeat split.
Qed.

(** *** Sequences of navbar selections *)

Lemma latest_snoc (ks : list ViewKey) (k : ViewKey) :
  latest (ks ++ [k]) = Some k.
Proof. unfold latest. now rewrite rev_app_distr. Qed.

Lemma select_step_inv (w : World) (k k0 : ViewKey) :
  settled w -> follows_signal w -> mirrored w ->
  forceTitle w = signal_of k0 ->
  settled (step (select k) w) /\ follows_signal (step (select k) w) /\
  mirrored (step (select k) w) /\
  forceTitle (step (select k) w) = signal_of k.
Proof.
  destruct w as [fo ft se ed em].
  unfold settled, follows_signal, mirrored, is_open; simpl.
  intros Hs Hf Hm Hk. subst.
  destruct k0, k; vm_compute; repeat split.
Qed.

Lemma select_run_inv (ks : list ViewKey) :
  settled (run (map select ks) init) /\
  follows_signal (run (map select ks) init) /\
  mirrored (run (map select ks) init) /\
  forceTitle (run (map select ks) init)
  = match latest ks with Some k => signal_of k | None => None end.
Proof.
  induction ks as [|k ks IH] using rev_ind.
  - vm_compute. repeat split.
  - rewrite map_app. change (map select [k]) with [select k].
    rewrite run_snoc, latest_snoc.
    destruct IH as (Hs & Hf & Hm & Hk).
    destruct (latest ks) as [k0|].
    + now apply (select_step_inv _ k k0).
    + now apply (select_step_inv _ k HOME).
Qed.

(** C3.  After any finite sequence of navbar selections, started on the
    freshly mounted page, the Form Host shows the menu exactly when the
    sequence is empty or its latest key is HOME; otherwise it shows the
    card that [menuCards.find] resolves the latest key to. *)
Theorem select_sequence_menu_iff_home (ks : list ViewKey) :
  (selected (run (map select ks) init) = None
   <-> latest ks = None \/ latest ks = Some HOME) /\
  (forall k, latest ks = Some k -> k <> HOME ->
     exists c, selected (run (map select ks) init) = Some c /\
               find_forced (Some (key_name k)) = Some c /\
               title c = key_name k).
Proof.
  destruct (select_run_inv ks) as (_ & Hf & _ & Hk).
  unfold follows_signal in Hf. rewrite Hk in Hf. rewrite Hf. clear Hf Hk.
  split.
  - destruct (latest ks) as [[]|]; vm_compute; split; intros H;
      try discriminate; auto; destruct H; discriminate.
  - intros k -> Hk. destruct k; try congruence;
      vm_compute; eexists; repeat split.
Qed.

Lemma select_sequence_menu_iff_home_witness :
  latest [UPLOAD; HOME; MERGE] = Some MERGE /\ MERGE <> HOME /\
  exists c, selected (run (map select [UPLOAD; HOME; MERGE]) init) = Some c /\
            find_forced (Some (key_name MERGE)) = Some c /\
            title c = key_name MERGE.
Proof.
  split; [reflexivity|]. split; [discriminate|].
  exact (proj2 (select_sequence_menu_iff_home [UPLOAD; HOME; MERGE])
               MERGE eq_refl ltac:(discriminate)).
Defined.

(** *** The mirror between [selected] and [formOpen] *)

(** Whatever the event, an open flag implies an open form: the flag is
    only ever raised together with [setSelected(card)]. *)
Lemma open_flag_has_form (e : event) (w : World) :
  (formOpen w = true -> is_open w = true) ->
  formOpen (step e w) = true -> is_open (step e w) = true.
Proof.
  destruct w as [fo ft se ed em]. unfold is_open; simpl. intros H.
  destruct e as [key|card|]; unfold step, commit; simpl handle.
  - unfold handleNavigate. destruct (key =? "HOME"); simpl.
    + destruct (deps_changed ed None); simpl; [|discriminate].
      unfold syncEffect; simpl. destruct se; simpl; discriminate.
    + destruct (deps_changed ed (Some key)); simpl; [|exact H].
      unfold syncEffect; simpl.
      destruct (negb (key =? "")); simpl.
      * destruct (find_forced (Some key)); simpl; auto.
      * destruct se; simpl; auto.
  - simpl. destruct (deps_changed ed ft); simpl; [|auto].
    unfold syncEffect; simpl. destruct (truthy ft); simpl.
    + destruct (find_forced ft); simpl; auto.
    + discriminate.
  - simpl. destruct (deps_changed ed ft); simpl; [|discriminate].
    unfold syncEffect; simpl. destruct (truthy ft); simpl.
    + destruct (find_forced ft); simpl; auto; discriminate.
    + discriminate.
Qed.

Lemma reachable_open_flag_has_form (w : World) :
  reachable w -> formOpen w = true -> is_open w = true.
Proof.
  induction 1 as [|e w R IH En].
  - vm_compute. discriminate.
  - now apply open_flag_has_form.
Qed.

(** C1.  The event sequence "click the SPLIT card, click Home" is offered
    by the page at every step, and after its last render the Form Host
    still shows the SPLIT form while the parent's flag says closed. *)
Theorem direct_open_then_home_breaks_mirror :
  reachable (run [OpenDirect cardSPLIT; select HOME] init) /\
  selected (run [OpenDirect cardSPLIT; select HOME] init) = Some cardSPLIT /\
  formOpen (run [OpenDirect cardSPLIT; select HOME] init) = false /\
  ~ mirrored (run [OpenDirect cardSPLIT; select HOME] init).
Proof.
  assert (R1 : reachable (step (OpenDirect cardSPLIT) init))
    by (apply reach_step; [apply reach_init | reflexivity]).
  assert (R2 : reachable (step (select HOME) (step (OpenDirect cardSPLIT) init)))
    by (apply reach_step; [exact R1 | reflexivity]).
  split; [exact R2|].
  split; [reflexivity|]. split; [reflexivity|].
  vm_compute. discriminate.
Qed.

(** C2.  On the freshly mounted page the signal is absent; clicking the
    SPLIT card opens the SPLIT form; the following click on Home leaves
    the signal absent, so the effect does not run: the SPLIT form stays,
    the Form Host emits nothing, and only the parent's own flag drops. *)
Theorem direct_open_then_home_keeps_form :
  forceTitle init = None /\
  enabled (OpenDirect cardSPLIT) init = true /\
  selected (step (OpenDirect cardSPLIT) init) = Some cardSPLIT /\
  selected (step (select HOME) (step (OpenDirect cardSPLIT) init))
    = Some cardSPLIT /\
  emitted (step (OpenDirect cardSPLIT) init)
          (step (select HOME) (step (OpenDirect cardSPLIT) init)) = [] /\
  formOpen (step (select HOME) (step (OpenDirect cardSPLIT) init)) = false.
Proof. vm_compute. repeat split. Qed.

(** *** Repeated selections *)

Lemma emitted_app (w w' : World) (l : list bool) :
  emissions w' = emissions w ++ l -> emitted w w' = l.
Proof.
  unfold emitted. intros ->.
  rewrite skipn_app, skipn_all, Nat.sub_diag. reflexivity.
Qed.

(** C4, the claim as stated fails: on the freshly mounted page two
    selections of HOME produce no emission at all, not exactly one; and
    after UPLOAD was selected and left with the back button, two
    selections of UPLOAD produce none either. *)
Lemma select_twice_may_emit_nothing :
  emitted init (run [select HOME; select HOME] init) = [] /\
  emitted (run [select UPLOAD; Back] init)
          (run [select UPLOAD; select UPLOAD] (run [select UPLOAD; Back] init))
  = [].
Proof. vm_compute. split; reflexivity. Qed.

(** C4, amended.  On a settled page, selecting the same key twice in a
    row leaves exactly the state one selection leaves, so the second
    selection emits nothing and changes nothing, and a further render with
    the same signal does nothing either; the pair emits at most once: one
    "open" when the key is not HOME and differs from the signal, one
    "closed" when HOME clears a signal while a form is shown, nothing when
    the key is not HOME and the signal already holds it, and nothing when
    the key is HOME and no form is shown. *)
Theorem select_twice_same_as_once (w : World) (k : ViewKey) :
  settled w ->
  run [select k; select k] w = step (select k) w /\
  commit (run [select k; select k] w) = step (select k) w /\
  emitted (step (select k) w) (run [select k; select k] w) = [] /\
  length (emitted w (run [select k; select k] w)) <= 1 /\
  (k <> HOME -> forceTitle w <> Some (key_name k) ->
     emitted w (run [select k; select k] w) = [true]) /\
  (k = HOME -> forceTitle w <> None -> is_open w = true ->
     emitted w (run [select k; select k] w) = [false]) /\
  (k <> HOME -> forceTitle w = Some (key_name k) ->
     emitted w (run [select k; select k] w) = []) /\
  (k = HOME -> is_open w = false ->
     emitted w (run [select k; select k] w) = []).
Proof.
  intros Hs.
  assert (E : run [select k; select k] w = step (select k) w)
    by apply navigate_twice.
  rewrite E. split; [reflexivity|].
  split; [apply commit_idempotent|].
  split; [apply emitted_app; now rewrite app_nil_r|].
  split.
  { destruct (step_navigate_emits (key_name k) w) as (l & El & Ll).
    unfold select. now rewrite (emitted_app _ _ _ El). }
  split; [|split; [|split]].
  - intros Hk Hf.
    destruct (navigate_new_signal k w Hs Hk Hf) as (c & _ & _ & _ & _ & Em).
    now apply emitted_app.
  - intros -> Hf Ho. apply emitted_app.
    destruct w as [fo ft se ed em]. unfold settled, is_open in *.
    simpl in *. subst ed.
    destruct ft as [t|]; [|congruence]. destruct se; [|discriminate].
    reflexivity.
  - intros Hk Hf. apply emitted_app. rewrite app_nil_r.
    unfold select. rewrite navigate_same_signal; auto.
    now destruct k.
  - intros -> Ho. apply emitted_app. rewrite app_nil_r.
    destruct w as [fo ft se ed em]. unfold settled, is_open in *.
    simpl in *. subst ed. destruct se; [discriminate|].
    unfold step, commit, deps_changed; simpl.
    destruct (same_value ft None); reflexivity.
Qed.

Lemma select_twice_same_as_once_witness :
  settled (step (select UPLOAD) init) /\
  run [select MERGE; select MERGE] (step (select UPLOAD) init)
  = step (select MERGE) (step (select UPLOAD) init).
Proof.
  split.
  - apply settled_step.
  - apply (select_twice_same_as_once (step (select UPLOAD) init) MERGE).
    apply settled_step.
Defined.

(** *** Signals that resolve to no card *)

(** C5, amended.  When a signal arrives that the guard [if (forcedFormTitle)]
    takes as present (a string that is not empty) and that [menuCards.find]
    resolves to no card, the effect returns the state it was given, and
    the render leaves [selected], the parent's flag and the emission log
    as they were, whatever they were. *)
Theorem unknown_signal_is_noop (w : World) (t : string) :
  truthy (Some t) = true -> find_forced (Some t) = None ->
  syncEffect (setForceTitle (Some t) w) = setForceTitle (Some t) w /\
  selected (commit (setForceTitle (Some t) w)) = selected w /\
  formOpen (commit (setForceTitle (Some t) w)) = formOpen w /\
  emitted w (commit (setForceTitle (Some t) w)) = [].
Proof.
  intros Ht Hf.
  assert (E : forall x, forceTitle x = Some t -> syncEffect x = x).
  { intros x Hx. unfold syncEffect. now rewrite Hx, Ht, Hf. }
  split; [now apply E|].
  unfold commit. destruct (deps_changed _ _).
  - rewrite E by reflexivity. simpl.
    repeat split. apply emitted_app. now rewrite app_nil_r.
  - simpl. repeat split. apply emitted_app. now rewrite app_nil_r.
Qed.

Lemma unknown_signal_is_noop_witness :
  truthy (Some "PRINT") = true /\ find_forced (Some "PRINT") = None /\
  selected (commit (setForceTitle (Some "PRINT") (step (select UPLOAD) init)))
  = selected (step (select UPLOAD) init).
Proof.
  split; [reflexivity|]. split; [reflexivity|].
  exact (proj1 (proj2
           (unknown_signal_is_noop (step (select UPLOAD) init) "PRINT"
              eq_refl eq_refl))).
Defined.

(** C5, the claim as stated fails: the empty string is a signal value
    that is not null and that [menuCards.find] resolves to no card, yet
    the guard [if (forcedFormTitle)] takes it as absent: with the UPLOAD
    form shown, [handleNavigate] stores it and the effect closes the form
    and emits "closed". *)
Lemma empty_signal_counts_as_absent :
  find_forced (Some "") = None /\
  selected (step (select UPLOAD) init) = Some cardUPLOAD /\
  forceTitle (step (Navigate "") (step (select UPLOAD) init)) = Some "" /\
  selected (step (Navigate "") (step (select UPLOAD) init)) = None /\
  emitted (step (select UPLOAD) init)
          (step (Navigate "") (step (select UPLOAD) init)) = [false] /\
  selected (commit (setForceTitle (Some "") (step (select UPLOAD) init)))
  = None.
Proof. vm_compute. repeat split. Qed.

(** *** Direct opening and the back button *)

Lemma step_open_direct (d : Card) (w : World) :
  settled w -> step (OpenDirect d) w = openCard d w.
Proof. intros H. apply commit_settled. exact H. Qed.

Lemma step_back (w : World) : settled w -> step Back w = back w.
Proof. intros H. apply commit_settled. exact H. Qed.

(** C6, the claim as stated fails: with the UPLOAD form shown, opening
    MERGE and going back ends on the menu, not on the UPLOAD form. *)
Lemma open_back_from_form_loses_form :
  selected (step (select UPLOAD) init) = Some cardUPLOAD /\
  selected (step Back (step (OpenDirect cardMERGE) (step (select UPLOAD) init)))
  = None /\
  selected (step Back (step (OpenDirect cardMERGE) (step (select UPLOAD) init)))
  <> selected (step (select UPLOAD) init).
Proof. vm_compute. repeat split. discriminate. Qed.

(** C6, amended.  On a settled page that shows the menu (the only page
    whose card grid offers [openCard]), opening any card shows that card
    and going back restores the value [selected] had before, the menu;
    from any settled page the pair ends on the menu. *)
Theorem open_back_roundtrip_from_menu (w : World) (d : Card) :
  settled w -> selected w = None ->
  selected (step (OpenDirect d) w) = Some d /\
  selected (step Back (step (OpenDirect d) w)) = selected w /\
  (forall w0 : World, settled w0 ->
     selected (step Back (step (OpenDirect d) w0)) = None).
Proof.
  intros Hs Hm.
  assert (G : forall w0 : World, settled w0 ->
              selected (step Back (step (OpenDirect d) w0)) = None).
  { intros w0 H0. rewrite step_back by apply settled_step. reflexivity. }
  split; [now rewrite step_open_direct|].
  split; [rewrite Hm; now apply G | exact G].
Qed.

Lemma open_back_roundtrip_from_menu_witness :
  settled init /\ selected init = None /\
  selected (step Back (step (OpenDirect cardSPLIT) init)) = selected init.
Proof.
  split; [apply settled_init|]. split; [reflexivity|].
  exact (proj1 (proj2
           (open_back_roundtrip_from_menu init cardSPLIT settled_init eq_refl))).
Defined.

(** *** The back button keeps the signal *)

Lemma run_repeat_fixed (e : event) (w : World) (n : nat) :
  step e w = w -> run (repeat e n) w = w.
Proof.
  intros H. induction n as [|n IH]; [reflexivity|].
  simpl. unfold run in IH. now rewrite H.
Qed.

(** C10.  From any settled page, after [select k] with [k] not HOME and
    then the back button, the signal still holds [k] and the menu is
    shown; selecting [k] again, any number of times, leaves that state as
    it is; selecting another key that is not HOME shows that key's card;
    and after HOME the key [k] opens its card again. *)
Theorem back_keeps_signal_reselect_inert (w : World) (k : ViewKey) :
  settled w -> k <> HOME ->
  forceTitle (step Back (step (select k) w)) = Some (key_name k) /\
  selected (step Back (step (select k) w)) = None /\
  (forall n : nat,
     run (repeat (select k) n) (step Back (step (select k) w))
     = step Back (step (select k) w)) /\
  (forall k' : ViewKey, k' <> HOME -> k' <> k ->
     exists c, selected (step (select k') (step Back (step (select k) w)))
               = Some c /\ title c = key_name k') /\
  (selected (step (select HOME) (step Back (step (select k) w))) = None /\
   exists c, selected (step (select k)
               (step (select HOME) (step Back (step (select k) w))))
             = Some c /\ title c = key_name k).
Proof.
  intros Hs Hk.
  set (w1 := step Back (step (select k) w)).
  assert (S1 : settled w1) by apply settled_step.
  assert (F1 : forceTitle w1 = Some (key_name k)).
  { unfold w1. rewrite step_back by apply settled_step.
    simpl. unfold select. rewrite step_navigate_signal.
    destruct k; try congruence; reflexivity. }
  assert (M1 : selected w1 = None).
  { unfold w1. rewrite step_back by apply settled_step. reflexivity. }
  split; [exact F1|]. split; [exact M1|]. split; [|split; [|split]].
  - intros n. apply run_repeat_fixed. unfold select.
    apply navigate_same_signal; [exact S1 | now destruct k | exact F1].
  - intros k' Hk' Hd.
    destruct (navigate_new_signal k' w1 S1 Hk') as (c & _ & Tc & Sc & _).
    + rewrite F1. intros E. apply Hd. destruct k, k'; simpl in E; congruence.
    + now exists c.
  - clearbody w1. destruct w1 as [fo ft se ed em].
    unfold settled in S1. simpl in *. subst.
    destruct k; try congruence; reflexivity.
  - destruct (navigate_new_signal k (step (select HOME) w1))
      as (c & _ & Tc & Sc & _).
    + apply settled_step.
    + exact Hk.
    + unfold select at 1. rewrite step_navigate_signal. discriminate.
    + now exists c.
Qed.

Lemma back_keeps_signal_reselect_inert_witness :
  settled init /\ UPLOAD <> HOME /\
  run (repeat (select UPLOAD) 1) (step Back (step (select UPLOAD) init))
  = step Back (step (select UPLOAD) init).
Proof.
  split; [apply settled_init|]. split; [discriminate|].
  apply (proj1 (proj2 (proj2
           (back_keeps_signal_reselect_inert init UPLOAD settled_init
              ltac:(discriminate)))) 1).
Defined.

End NavFacts.

(* ------------------------------------------------------------------ *)
(** ** Properties of the forms                                         *)
(* ------------------------------------------------------------------ *)
Section FormFacts.
Import Forms.
Local Open Scope list_scope.

Lemma alert_shown (t : string) : shown (alert t) = negb (t =? "").
Proof. unfold alert. now destruct (t =? ""). Qed.

Lemma or_else_not_empty (d : option string) (fb : string) :
  fb <> "" -> or_else d fb <> "".
Proof.
  intros H. unfold or_else. destruct d as [x|]; [|exact H].
  destruct (x =? "") eqn:E; [exact H|]. now apply String.eqb_neq.
Qed.

Lemma alert_or_else (d : option string) (fb : string) :
  fb <> "" -> alert (or_else d fb) = Some (or_else d fb).
Proof.
  intros H. unfold alert.
  destruct (or_else d fb =? "") eqn:E; [|reflexivity].
  apply String.eqb_eq in E. now apply or_else_not_empty in E.
Qed.

Lemma run_forms_snoc (es : list event) (e : event) (m : Mounted) :
  run (es ++ [e]) m = step e (run es m).
Proof. unfold run. now rewrite fold_left_app. Qed.

Lemma steady_mount (k : Kind) : steady (mount k).
Proof. destruct k; vm_compute; repeat split; auto; discriminate. Qed.

Ltac form_cases f :=
  destruct f as [[fi u er lo]|[u er lo]|[[f1|] [f2|] u er lo]|[[fi|] ra u er lo]];
  unfold on_submit, UploadForm.handleSubmit, DownloadForm.submit,
         MergeForm.submit, SplitForm.submit;
  cbn.

Lemma on_submit_issues (f : Form) (rq : request) :
  snd (on_submit f) = Some rq ->
  submit_disabled (fst (on_submit f)) = true /\
  success_alert (fst (on_submit f)) = None /\
  danger_alert (fst (on_submit f)) = None /\
  kind_of (fst (on_submit f)) = kind_of f.
Proof.
  form_cases f; try (destruct fi; cbn); try (destruct (u =? ""); cbn);
    try (destruct (ra =? ""); cbn); intros H; try discriminate H; auto.
Qed.

Lemma on_submit_rejects (f : Form) :
  snd (on_submit f) = None ->
  submit_disabled (fst (on_submit f)) = submit_disabled f /\
  success_alert (fst (on_submit f)) = None /\
  shown (danger_alert (fst (on_submit f))) = true /\
  kind_of (fst (on_submit f)) = kind_of f.
Proof.
  form_cases f; try (destruct fi; cbn); try (destruct (u =? ""); cbn);
    try (destruct (ra =? ""); cbn); intros H; try discriminate H; auto.
Qed.

Lemma on_settle_completes (q : request) (r : response) (f : Form) :
  success_alert f = None -> danger_alert f = None ->
  submit_disabled (fst (on_settle q r f)) = false /\
  kind_of (fst (on_settle q r f)) = kind_of f /\
  match r with
  | Resolved data =>
      danger_alert (fst (on_settle q r f)) = None /\
      success_alert (fst (on_settle q r f))
      = match kind_of f with KDownload => None | _ => alert data end
  | Rejected detail =>
      shown (danger_alert (fst (on_settle q r f))) = true /\
      success_alert (fst (on_settle q r f)) = None
  end.
Proof.
  form_cases f; intros Hs Hd; destruct r as [data|detail]; cbn;
    unfold UploadForm.success_alert, UploadForm.danger_alert,
           MergeForm.success_alert, MergeForm.danger_alert,
           SplitForm.success_alert, SplitForm.danger_alert,
           DownloadForm.success_alert, DownloadForm.danger_alert in *;
    cbn in *; rewrite ?alert_or_else by discriminate; auto.
Qed.

Lemma inputs_keep_alerts (f : Form) :
  (forall n v, submit_disabled (choose_file n v f) = submit_disabled f /\
               success_alert (choose_file n v f) = success_alert f /\
               danger_alert (choose_file n v f) = danger_alert f /\
               kind_of (choose_file n v f) = kind_of f) /\
  (forall v, submit_disabled (type_text v f) = submit_disabled f /\
             success_alert (type_text v f) = success_alert f /\
             danger_alert (type_text v f) = danger_alert f /\
             kind_of (type_text v f) = kind_of f).
Proof.
  split; [intros n v | intros v].
  - destruct f as [s|s|s|s]; destruct n as [|[|n]]; cbn; auto.
  - destruct f as [s|s|s|s]; cbn; auto.
Qed.

(** *** The invariant of a mounted form *)

Lemma steady_step (e : event) (m : Mounted) : steady m -> steady (step e m).
Proof.
  destruct m as [f p i sv]. unfold steady. simpl.
  intros (Hd & Hl & Hc & Hb).
  destruct e as [|n v|v|r]; simpl.
  - unfold click_submit; simpl.
    destruct (submit_disabled f) eqn:D; simpl; [now rewrite D|].
    destruct p as [|q p]; [|discriminate Hd].
    destruct (on_submit f) as [f' [rq|]] eqn:E; simpl.
    + destruct (on_submit_issues f rq) as (A & B & C & _);
        [now rewrite E|]. rewrite E in *; simpl in *.
      rewrite A, B, C. repeat split; auto.
    + destruct (on_submit_rejects f) as (A & B & C & _);
        [now rewrite E|]. rewrite E in *; simpl in *.
      rewrite A, B, D. repeat split; auto. discriminate.
  - destruct (inputs_keep_alerts f) as [H _].
    destruct (H n v) as (-> & -> & -> & _). auto.
  - destruct (inputs_keep_alerts f) as [_ H].
    destruct (H v) as (-> & -> & -> & _). auto.
  - unfold settle; simpl.
    destruct p as [|q p]; simpl; [auto|].
    destruct p as [|q' p]; [|simpl in Hl; lia].
    destruct (Hc Hd) as [Hs Hg].
    destruct (on_settle_completes q r f Hs Hg) as (A & _ & B).
    destruct (on_settle q r f) as [f' files]; simpl in *.
    rewrite A. split; [reflexivity|]. split; [lia|].
    split; [discriminate|].
    destruct r as [data|detail]; destruct B as [B1 B2].
    + rewrite B1. apply andb_false_r.
    + now rewrite B2.
Qed.

Lemma steady_run (es : list event) (m : Mounted) :
  steady m -> steady (run es m).
Proof.
  revert m. induction es as [|e es IH]; intros m H; [exact H|].
  simpl. apply IH. now apply steady_step.
Qed.

Lemma kind_step (e : event) (m : Mounted) :
  kind_of (form (step e m)) = kind_of (form m).
Proof.
  destruct m as [f p i sv]. destruct e as [|n v|v|r]; simpl.
  - unfold click_submit; simpl. destruct (submit_disabled f); [reflexivity|].
    destruct (on_submit f) as [f' [rq|]] eqn:E; simpl.
    + destruct (on_submit_issues f rq) as (_ & _ & _ & K);
        [now rewrite E|]. now rewrite E in K.
    + destruct (on_submit_rejects f) as (_ & _ & _ & K);
        [now rewrite E|]. now rewrite E in K.
  - destruct (inputs_keep_alerts f) as [H _]. now destruct (H n v) as (_ & _ & _ & ->).
  - destruct (inputs_keep_alerts f) as [_ H]. now destruct (H v) as (_ & _ & _ & ->).
  - unfold settle; simpl. destruct p as [|q p]; [reflexivity|].
    destruct f as [s|s|s|s]; destruct r; reflexivity.
Qed.

Lemma kind_run (es : list event) (k : Kind) :
  kind_of (form (run es (mount k))) = k.
Proof.
  induction es as [|e es IH] using rev_ind; [now destruct k|].
  now rewrite run_forms_snoc, kind_step.
Qed.

(** *** Validation *)

(** C7.  With no file chosen, [handleSubmit] of the upload form clears
    the result, sets the error to "Selecione um PDF" and returns without
    a request, leaving [loading] alone; a click on the enabled button
    therefore neither issues nor puts in flight any request, the danger
    alert shows that message, and with nothing in flight no settlement
    can resume the handler, so neither the tail of its [try] nor its
    [catch] runs.  The other three forms do the same with their own
    required inputs and messages. *)
Theorem upload_without_file_is_local (s : UploadForm.State) :
  UploadForm.file s = None ->
  UploadForm.handleSubmit s
  = (UploadForm.mk None "" "Selecione um PDF" (UploadForm.loading s), None) /\
  (forall p i sv,
     UploadForm.loading s = false ->
     issued (step ClickSubmit (mkMounted (Upload s) p i sv)) = i /\
     pending (step ClickSubmit (mkMounted (Upload s) p i sv)) = p /\
     danger_alert (form (step ClickSubmit (mkMounted (Upload s) p i sv)))
     = Some "Selecione um PDF" /\
     success_alert (form (step ClickSubmit (mkMounted (Upload s) p i sv)))
     = None) /\
  (forall i sv r,
     UploadForm.loading s = false ->
     step (Settle r) (step ClickSubmit (mkMounted (Upload s) [] i sv))
     = step ClickSubmit (mkMounted (Upload s) [] i sv)) /\
  (forall t : MergeForm.State,
     MergeForm.file1 t = None \/ MergeForm.file2 t = None ->
     snd (MergeForm.submit t) = None /\
     MergeForm.err (fst (MergeForm.submit t)) = "Selecione os dois PDFs") /\
  (forall t : SplitForm.State,
     SplitForm.file t = None \/ SplitForm.range t = "" ->
     snd (SplitForm.submit t) = None /\
     SplitForm.err (fst (SplitForm.submit t))
     = "Arquivo e intervalo obrigatórios") /\
  (forall t : DownloadForm.State,
     DownloadForm.uuid t = "" ->
     snd (DownloadForm.submit t) = None /\
     DownloadForm.err (fst (DownloadForm.submit t)) = "Informe o UUID").
Proof.
  intros Hf. destruct s as [fi u er lo]. simpl in Hf. subst fi.
  split; [reflexivity|].
  split; [intros p i sv Hl; simpl in Hl; subst lo; repeat split|].
  split; [intros i sv r Hl; simpl in Hl; subst lo; reflexivity|].
  split; [|split].
  - intros [f1 f2 u' e' l'] [H|H]; simpl in H; subst.
    + split; reflexivity.
    + destruct f1; split; reflexivity.
  - intros [f ra u' e' l'] [H|H]; simpl in H; subst.
    + split; reflexivity.
    + destruct f; split; reflexivity.
  - intros [u' e' l'] H; simpl in H; subst. split; reflexivity.
Qed.

Lemma upload_without_file_is_local_witness :
  UploadForm.file UploadForm.initial = None /\
  UploadForm.handleSubmit UploadForm.initial
  = (UploadForm.mk None "" "Selecione um PDF" false, None).
Proof.
  split; [reflexivity|].
  exact (proj1 (upload_without_file_is_local UploadForm.initial eq_refl)).
Defined.

(** *** The busy flag *)

(** The handlers themselves do not read [loading]: what keeps a second
    request from being issued is the disabled button. *)
Lemma handler_ignores_loading (f : File) :
  snd (UploadForm.handleSubmit (UploadForm.mk (Some f) "" "" true))
  = Some (PostUpload f).
Proof. reflexivity. Qed.

(** C8, the claim as stated fails: with a file chosen and one upload in
    flight ([loading] is true and the button disabled), the submit handler
    run on that state issues a second request; it never reads [loading]. *)
Lemma submit_event_while_loading_issues_request :
  submit_disabled
    (form (run [ChooseFile 0 (Some (mkFile "a.pdf")); ClickSubmit]
               (mount KUpload))) = true /\
  pending (run [ChooseFile 0 (Some (mkFile "a.pdf")); ClickSubmit]
               (mount KUpload)) = [PostUpload (mkFile "a.pdf")] /\
  snd (on_submit
         (form (run [ChooseFile 0 (Some (mkFile "a.pdf")); ClickSubmit]
                    (mount KUpload)))) = Some (PostUpload (mkFile "a.pdf")) /\
  snd (UploadForm.handleSubmit
         (UploadForm.mk (Some (mkFile "a.pdf")) "" "" true))
  = Some (PostUpload (mkFile "a.pdf")).
Proof. repeat split. Qed.

(** C8, amended.  Whatever the form and whatever the clicks on its submit
    button, inputs and settlements one mounted form has seen since it was
    mounted, at most one of its requests is in flight; its button is
    disabled exactly while one is; and a click on the submit button in
    that state changes nothing: no request is issued and none is added to
    those in flight. *)
Theorem one_request_in_flight (k : Kind) (es : list event) :
  length (pending (run es (mount k))) <= 1 /\
  (submit_disabled (form (run es (mount k))) = true
   <-> length (pending (run es (mount k))) = 1) /\
  (submit_disabled (form (run es (mount k))) = true ->
   step ClickSubmit (run es (mount k)) = run es (mount k)) /\
  length (issued (step ClickSubmit (run es (mount k))))
  <= S (length (issued (run es (mount k)))).
Proof.
  destruct (steady_run es (mount k) (steady_mount k)) as (Hd & Hl & _ & _).
  set (m := run es (mount k)) in *.
  split; [exact Hl|]. split; [|split].
  - rewrite Hd. destruct (pending m) as [|q [|q' p]]; simpl in *;
      split; intros H; try discriminate; try reflexivity; lia.
  - intros H. unfold step, click_submit. now rewrite H.
  - unfold step, click_submit. destruct (submit_disabled (form m)); [lia|].
    destruct (on_submit (form m)) as [f' [rq|]]; simpl;
      [rewrite length_app; simpl|]; lia.
Qed.

(** A run in which the block is exercised: a file is chosen and the
    button is clicked three times before the response. *)
Lemma one_request_in_flight_witness :
  submit_disabled
    (form (run [ChooseFile 0 (Some (mkFile "a.pdf")); ClickSubmit; ClickSubmit]
               (mount KUpload))) = true /\
  issued (run [ChooseFile 0 (Some (mkFile "a.pdf")); ClickSubmit; ClickSubmit]
              (mount KUpload)) = [PostUpload (mkFile "a.pdf")] /\
  step ClickSubmit
    (run [ChooseFile 0 (Some (mkFile "a.pdf")); ClickSubmit; ClickSubmit]
         (mount KUpload))
  = run [ChooseFile 0 (Some (mkFile "a.pdf")); ClickSubmit; ClickSubmit]
        (mount KUpload).
Proof.
  split; [reflexivity|]. split; [reflexivity|].
  exact (proj1 (proj2 (proj2
           (one_request_in_flight KUpload
              [ChooseFile 0 (Some (mkFile "a.pdf")); ClickSubmit; ClickSubmit])))
           eq_refl).
Defined.

(** *** The two alerts *)

(** C9, the claim as stated fails: when a download completes with
    success the file is offered to the user and neither alert is shown
    ([DownloadForm] renders no success alert at all); and an upload whose
    response carries an empty [uuid] completes with neither alert. *)
Lemma completion_may_show_neither :
  (pending (run [TypeText "abc"; ClickSubmit; Settle (Resolved "%PDF-1.7")]
                (mount KDownload)) = [] /\
   saved (run [TypeText "abc"; ClickSubmit; Settle (Resolved "%PDF-1.7")]
              (mount KDownload)) = ["abc.pdf"] /\
   success_alert (form (run [TypeText "abc"; ClickSubmit;
                             Settle (Resolved "%PDF-1.7")] (mount KDownload)))
   = None /\
   danger_alert (form (run [TypeText "abc"; ClickSubmit;
                            Settle (Resolved "%PDF-1.7")] (mount KDownload)))
   = None) /\
  (pending (run [ChooseFile 0 (Some (mkFile "a.pdf")); ClickSubmit;
                 Settle (Resolved "")] (mount KUpload)) = [] /\
   success_alert (form (run [ChooseFile 0 (Some (mkFile "a.pdf")); ClickSubmit;
                             Settle (Resolved "")] (mount KUpload))) = None /\
   danger_alert (form (run [ChooseFile 0 (Some (mkFile "a.pdf")); ClickSubmit;
                            Settle (Resolved "")] (mount KUpload))) = None).
Proof. repeat split. Qed.

(** C9, amended.  In every form, whatever it has seen since it was
    mounted: the success alert and the danger alert are never shown
    together; a submission that issues a request has both alerts down
    when it issues it; and when the request in flight settles, a
    rejection shows the danger alert alone, a success shows no danger
    alert and, in the upload, merge and split forms, the success alert
    exactly when the returned identifier is not empty, while the download
    form shows nothing. *)
Theorem never_both_alerts (k : Kind) (es : list event) :
  shown (success_alert (form (run es (mount k))))
  && shown (danger_alert (form (run es (mount k)))) = false /\
  (forall rq,
     snd (on_submit (form (run es (mount k)))) = Some rq ->
     success_alert (fst (on_submit (form (run es (mount k))))) = None /\
     danger_alert (fst (on_submit (form (run es (mount k))))) = None) /\
  (forall q detail,
     pending (run es (mount k)) = [q] ->
     shown (danger_alert
              (form (step (Settle (Rejected detail)) (run es (mount k)))))
     = true /\
     success_alert
       (form (step (Settle (Rejected detail)) (run es (mount k)))) = None) /\
  (forall q data,
     pending (run es (mount k)) = [q] ->
     danger_alert
       (form (step (Settle (Resolved data)) (run es (mount k)))) = None /\
     success_alert
       (form (step (Settle (Resolved data)) (run es (mount k))))
     = match k with KDownload => None | _ => alert data end).
Proof.
  destruct (steady_run es (mount k) (steady_mount k)) as (Hd & _ & Hc & Hb).
  pose proof (kind_run es k) as Hk.
  set (m := run es (mount k)) in *.
  split; [exact Hb|]. split; [|split].
  - intros rq H. now destruct (on_submit_issues _ _ H) as (_ & A & B & _).
  - intros q detail Hp. rewrite Hp in Hd. destruct (Hc Hd) as [Hs Hg].
    destruct (on_settle_completes q (Rejected detail) (form m) Hs Hg)
      as (_ & _ & B).
    unfold step, settle. rewrite Hp.
    destruct (on_settle q (Rejected detail) (form m)); exact B.
  - intros q data Hp. rewrite Hp in Hd. destruct (Hc Hd) as [Hs Hg].
    destruct (on_settle_completes q (Resolved data) (form m) Hs Hg)
      as (_ & _ & B).
    unfold step, settle. rewrite Hp. rewrite Hk in B.
    destruct (on_settle q (Resolved data) (form m)); exact B.
Qed.

Lemma never_both_alerts_witness :
  pending (run [ChooseFile 0 (Some (mkFile "a.pdf")); ClickSubmit] (mount KUpload))
  = [PostUpload (mkFile "a.pdf")] /\
  danger_alert
    (form (step (Settle (Resolved "6f1c"))
             (run [ChooseFile 0 (Some (mkFile "a.pdf")); ClickSubmit]
                  (mount KUpload)))) = None /\
  success_alert
    (form (step (Settle (Resolved "6f1c"))
             (run [ChooseFile 0 (Some (mkFile "a.pdf")); ClickSubmit]
                  (mount KUpload)))) = alert "6f1c".
Proof.
  split; [reflexivity|].
  exact (proj2 (proj2 (proj2
           (never_both_alerts KUpload
              [ChooseFile 0 (Some (mkFile "a.pdf")); ClickSubmit])))
           (PostUpload (mkFile "a.pdf")) "6f1c" eq_refl).
Defined.

End FormFacts.

(* ------------------------------------------------------------------ *)
(** ** Properties of the rendered page                                 *)
(* ------------------------------------------------------------------ *)
Section PageFacts.
Import Nav Page.
Local Open Scope list_scope.

Lemma card_eqb_eq (a b : Card) : card_eqb a b = true -> a = b.
Proof.
  destruct a as [i t d], b as [i' t' d']. unfold card_eqb; simpl.
  intros H. apply andb_prop in H as [H Hd]. apply andb_prop in H as [Hi Ht].
  apply Nat.eqb_eq in Hi. apply String.eqb_eq in Ht, Hd. now subst.
Qed.

Lemma find_forced_in (v : option string) (c : Card) :
  find_forced v = Some c -> In c menuCards /\ v = Some (title c).
Proof.
  unfold find_forced. intros H. apply find_some in H as [Hi Ht].
  split; [exact Hi|]. destruct v as [t|]; simpl in Ht; [|discriminate].
  apply String.eqb_eq in Ht. now subst.
Qed.

Lemma menu_card_has_form (c : Card) :
  In c menuCards ->
  find_forced (Some (title c)) = Some c /\
  exists comp, formByTitle (title c) = Some comp /\
  exists k, k <> HOME /\ title c = key_name k.
Proof.
  intros [H|[H|[H|[H|[]]]]]; subst c; (split; [reflexivity|]);
    eexists; (split; [reflexivity|]).
  - exists DOWNLOAD. split; [discriminate | reflexivity].
  - exists UPLOAD. split; [discriminate | reflexivity].
  - exists MERGE. split; [discriminate | reflexivity].
  - exists SPLIT. split; [discriminate | reflexivity].
Qed.

(** A render keeps [selected], clears it, or sets it to what the signal
    resolves to. *)
Lemma commit_selected (w : World) :
  selected (commit w) = selected w \/ selected (commit w) = None \/
  exists c, find_forced (forceTitle w) = Some c /\ selected (commit w) = Some c.
Proof.
  unfold commit. destruct (deps_changed _ _); [|now left].
  unfold syncEffect; simpl. destruct (truthy (forceTitle w)).
  - destruct (find_forced (forceTitle w)) as [c|] eqn:E; simpl.
    + right; right. now exists c.
    + now left.
  - destruct (selected w) eqn:E; simpl; rewrite ?E; auto.
Qed.

Lemma enabled_navigate_key (key : string) (w : World) :
  enabled (Navigate key) w = true -> exists k, key = key_name k.
Proof.
  unfold enabled. intros H. apply existsb_exists in H as (k & _ & Hk).
  apply String.eqb_eq in Hk. now exists k.
Qed.

Lemma reachable_shows_menu_card (w : World) :
  reachable w -> shows_menu_card w.
Proof.
  induction 1 as [|e w R IH En]; [exact I|].
  unfold shows_menu_card, step in *.
  destruct (commit_selected (handle e w)) as [E|[E|(c & Hc & E)]]; rewrite E.
  - destruct e as [key|card|].
    + simpl handle.
      now destruct (handle_navigate_emissions key w) as (_ & -> & _).
    + unfold enabled in En. destruct (selected w); [discriminate|].
      apply existsb_exists in En as (c' & Hi & He).
      apply card_eqb_eq in He. now subst.
    + exact I.
  - exact I.
  - now apply find_forced_in in Hc.
Qed.

Lemma selected_card_renders (w : World) (c : Card) :
  reachable w -> selected w = Some c ->
  In c menuCards /\
  exists comp, formByTitle (title c) = Some comp /\
               body (App_render w) = FormView comp c.
Proof.
  intros R E. pose proof (reachable_shows_menu_card w R) as H.
  unfold shows_menu_card, App_render, GenerateCardGrid_render in *; simpl.
  rewrite E in *. split; [exact H|].
  destruct (menu_card_has_form c H) as (_ & comp & Hc & _).
  exists comp. now rewrite Hc.
Qed.

(** X1.  On every page the user can reach, [GenerateCardGrid] renders
    either the card menu or the form that [formByTitle] holds for the
    selected card, which is an entry of [menuCards]; the lookup never
    comes back empty. *)
Theorem rendered_form_is_a_menu_card (w : World) :
  reachable w ->
  body (App_render w) <> Broken /\
  (selected w = None -> body (App_render w) = GridMenu menuCards) /\
  (forall c, selected w = Some c ->
     In c menuCards /\
     exists comp, formByTitle (title c) = Some comp /\
                  body (App_render w) = FormView comp c).
Proof.
  intros R. split; [|split].
  - destruct (selected w) as [c|] eqn:E.
    + destruct (selected_card_renders w c R E) as (_ & comp & _ & ->).
      discriminate.
    + unfold App_render, GenerateCardGrid_render; simpl. rewrite E.
      discriminate.
  - intros E. unfold App_render, GenerateCardGrid_render; simpl.
    now rewrite E.
  - intros c E. now apply selected_card_renders.
Qed.

Lemma rendered_form_is_a_menu_card_witness :
  reachable (step (select MERGE) init) /\
  body (App_render (step (select MERGE) init)) <> Broken.
Proof.
  assert (R : reachable (step (select MERGE) init))
    by (apply reach_step; [apply reach_init | reflexivity]).
  split; [exact R|].
  exact (proj1 (rendered_form_is_a_menu_card (step (select MERGE) init) R)).
Defined.

(** X2.  On every page the user can reach, the hero text is hidden only
    while a form is on screen: the card menu never appears without it. *)
Theorem hero_hidden_only_with_form (w : World) :
  reachable w -> hero (App_render w) = false ->
  exists comp c, body (App_render w) = FormView comp c /\ In c menuCards.
Proof.
  intros R Hh. simpl in Hh. apply negb_false_iff in Hh.
  pose proof (reachable_open_flag_has_form w R Hh) as Ho.
  unfold is_open in Ho. destruct (selected w) as [c|] eqn:E; [|discriminate].
  destruct (selected_card_renders w c R E) as (Hi & comp & _ & Hb).
  now exists comp, c.
Qed.

Lemma hero_hidden_only_with_form_witness :
  reachable (step (OpenDirect cardSPLIT) init) /\
  hero (App_render (step (OpenDirect cardSPLIT) init)) = false /\
  exists comp c,
    body (App_render (step (OpenDirect cardSPLIT) init)) = FormView comp c /\
    In c menuCards.
Proof.
  assert (R : reachable (step (OpenDirect cardSPLIT) init))
    by (apply reach_step; [apply reach_init | reflexivity]).
  split; [exact R|]. split; [reflexivity|].
  exact (hero_hidden_only_with_form (step (OpenDirect cardSPLIT) init) R eq_refl).
Defined.

(** *** Where the mirror can break *)

Lemma step_signal (e : event) (w : World) :
  forceTitle (step e w) = forceTitle (handle e w).
Proof.
  unfold step, commit. destruct (deps_changed _ _); [|reflexivity].
  now destruct (syncEffect_signal (recordDeps (handle e w))) as [-> _].
Qed.

Lemma signal_dec (w : World) (key : string) :
  forceTitle w = Some key \/ forceTitle w <> Some key.
Proof.
  destruct (same_value (forceTitle w) (Some key)) eqn:E.
  - left. now apply same_value_eq.
  - right. intros H. rewrite H, same_value_refl in E. discriminate.
Qed.

Lemma key_name_not_home (k : ViewKey) :
  k <> HOME -> (key_name k =? "HOME") = false.
Proof. destruct k; try congruence; reflexivity. Qed.

Lemma select_mirrors (k : ViewKey) (w : World) :
  settled w -> k <> HOME -> (forceTitle w <> None -> mirrored w) ->
  mirrored (step (select k) w).
Proof.
  intros Hs Hk IH. destruct (signal_dec w (key_name k)) as [Hf|Hf].
  - unfold select.
    rewrite navigate_same_signal; auto using key_name_not_home.
    apply IH. rewrite Hf. discriminate.
  - destruct (navigate_new_signal k w Hs Hk Hf) as (c & _ & _ & Sc & Fo & _).
    unfold mirrored, is_open. now rewrite Sc, Fo.
Qed.

Lemma reachable_signal_mirror (w : World) :
  reachable w -> forceTitle w <> None -> mirrored w.
Proof.
  induction 1 as [|e w R IH En]; [intros H; now contradiction H|].
  pose proof (reachable_settled w R) as Hs.
  destruct e as [key|card|].
  - destruct (enabled_navigate_key key w En) as (k & ->).
    intros Hn. destruct k.
    + rewrite step_navigate_signal in Hn. now contradiction Hn.
    + apply (select_mirrors UPLOAD); auto; discriminate.
    + apply (select_mirrors DOWNLOAD); auto; discriminate.
    + apply (select_mirrors MERGE); auto; discriminate.
    + apply (select_mirrors SPLIT); auto; discriminate.
  - intros _. now rewrite step_open_direct.
  - intros _. now rewrite step_back.
Qed.

(** X3.  On every page the user can reach, the parent's flag and the Form
    Host agree whenever the navigation signal is set; the only way they
    differ is a form on screen with the flag down and the signal
    absent. *)
Theorem mirror_breaks_only_without_signal (w : World) :
  reachable w ->
  (forceTitle w <> None -> mirrored w) /\
  (mirrored w \/
   forceTitle w = None /\ formOpen w = false /\ is_open w = true).
Proof.
  intros R. split; [now apply reachable_signal_mirror|].
  destruct (forceTitle w) as [t|] eqn:E.
  - left. apply reachable_signal_mirror; [exact R|]. rewrite E. discriminate.
  - pose proof (reachable_open_flag_has_form w R) as H.
    unfold mirrored. destruct (formOpen w), (is_open w); auto.
    discriminate H; reflexivity.
Qed.

Lemma mirror_breaks_only_without_signal_witness :
  reachable (run [OpenDirect cardSPLIT; select HOME] init) /\
  (mirrored (run [OpenDirect cardSPLIT; select HOME] init) \/
   forceTitle (run [OpenDirect cardSPLIT; select HOME] init) = None /\
   formOpen (run [OpenDirect cardSPLIT; select HOME] init) = false /\
   is_open (run [OpenDirect cardSPLIT; select HOME] init) = true).
Proof.
  assert (R1 : reachable (step (OpenDirect cardSPLIT) init))
    by (apply reach_step; [apply reach_init | reflexivity]).
  assert (R2 : reachable (run [OpenDirect cardSPLIT; select HOME] init))
    by (apply (reach_step (select HOME)); [exact R1 | reflexivity]).
  split; [exact R2|].
  exact (proj2 (mirror_breaks_only_without_signal _ R2)).
Defined.

(** X4.  Whenever the navigation signal is set, a click on Home returns to
    the menu: the signal is cleared, the form (if one is shown) is closed
    with one "closed" emission and none otherwise, the flag is down, and
    the page shows the hero text over the card menu. *)
Theorem home_closes_when_signal_set (w : World) :
  settled w -> forceTitle w <> None ->
  forceTitle (step (select HOME) w) = None /\
  selected (step (select HOME) w) = None /\
  formOpen (step (select HOME) w) = false /\
  emitted w (step (select HOME) w) = (if is_open w then [false] else []) /\
  App_render (step (select HOME) w) = mkScreen true (GridMenu menuCards).
Proof.
  intros Hs Hf. destruct w as [fo ft se ed em].
  unfold settled, is_open in *. simpl in *. subst ed.
  destruct ft as [t|]; [|congruence].
  destruct se as [c|].
  - repeat split. apply emitted_app. reflexivity.
  - repeat split. apply emitted_app. simpl. now rewrite app_nil_r.
Qed.

Lemma home_closes_when_signal_set_witness :
  settled (step (select UPLOAD) init) /\
  forceTitle (step (select UPLOAD) init) <> None /\
  selected (step (select HOME) (step (select UPLOAD) init)) = None.
Proof.
  split; [apply settled_step|]. split; [discriminate|].
  exact (proj1 (proj2
           (home_closes_when_signal_set (step (select UPLOAD) init)
              (settled_step _ _) ltac:(discriminate)))).
Defined.

(** *** The navbar and the card menu *)

Lemma reachable_signal_resolves (w : World) :
  reachable w ->
  forceTitle w = None \/
  exists c, find_forced (forceTitle w) = Some c /\ truthy (forceTitle w) = true.
Proof.
  induction 1 as [|e w R IH En]; [now left|].
  rewrite step_signal. destruct e as [key|card|]; [|exact IH|exact IH].
  destruct (enabled_navigate_key key w En) as (k & ->).
  destruct k; [now left | right ..]; eexists; split; reflexivity.
Qed.

(** X5.  The keys the navbar sends are HOME and the titles of the cards,
    each of which has a form; so on every page the user can reach the
    signal is absent or resolves to a card, and the branch of the effect
    for an unresolved key is never the one that runs. *)
Theorem navbar_keys_always_resolve :
  (forall w key,
     enabled (Navigate key) w = true <-> In key (map snd navbar_entries)) /\
  (forall label key,
     In (label, key) navbar_entries ->
     key = "HOME" \/
     exists c comp, find_forced (Some key) = Some c /\ title c = key /\
                    formByTitle key = Some comp) /\
  (forall w,
     reachable w ->
     forceTitle w = None \/
     exists c, find_forced (forceTitle w) = Some c /\
               truthy (forceTitle w) = true).
Proof.
  split; [|split].
  - intros w key. split.
    + intros H. destruct (enabled_navigate_key key w H) as (k & ->).
      destruct k; simpl; auto 10.
    + intros H. simpl in H.
      repeat (destruct H as [H|H]; [subst key; reflexivity|]).
      destruct H.
  - intros label key H. simpl in H.
    repeat (destruct H as [H|H];
            [injection H as <- <-;
             first [now left | right; do 2 eexists; repeat split]|]).
    destruct H.
  - exact reachable_signal_resolves.
Qed.

(** X6.  Looking a menu card up by its title gives that card back, so a
    navbar click on a card's title and a click on the card itself show the
    same form: from a settled page whose signal is not already that title,
    both select the card, raise the flag and emit one "open", and render
    the same body. *)
Theorem navbar_and_card_open_same_form (w : World) (c : Card) :
  settled w -> In c menuCards -> forceTitle w <> Some (title c) ->
  find_forced (Some (title c)) = Some c /\
  selected (step (Navigate (title c)) w) = Some c /\
  selected (step (OpenDirect c) w) = Some c /\
  formOpen (step (Navigate (title c)) w) = true /\
  formOpen (step (OpenDirect c) w) = true /\
  emitted w (step (Navigate (title c)) w) = [true] /\
  emitted w (step (OpenDirect c) w) = [true] /\
  body (App_render (step (Navigate (title c)) w))
  = body (App_render (step (OpenDirect c) w)).
Proof.
  intros Hs Hi Hf.
  destruct (menu_card_has_form c Hi) as (Hr & comp & Hcomp & k & Hk & Ht).
  rewrite Ht in Hf.
  destruct (navigate_new_signal k w Hs Hk Hf) as (c' & Hc & _ & Sc & Fo & Em).
  unfold select in Sc, Fo, Em. rewrite <- Ht in Hc, Sc, Fo, Em.
  rewrite Hr in Hc. injection Hc as Hc. subst c'.
  rewrite (step_open_direct c w Hs).
  split; [exact Hr|]. split; [exact Sc|]. split; [reflexivity|].
  split; [exact Fo|]. split; [reflexivity|].
  split; [now apply emitted_app|]. split; [now apply emitted_app|].
  unfold App_render, GenerateCardGrid_render; simpl. now rewrite Sc.
Qed.

Lemma navbar_and_card_open_same_form_witness :
  settled init /\ In cardMERGE menuCards /\
  forceTitle init <> Some (title cardMERGE) /\
  selected (step (Navigate (title cardMERGE)) init) = Some cardMERGE.
Proof.
  split; [apply settled_init|]. split; [simpl; auto|].
  split; [discriminate|].
  exact (proj1 (proj2
           (navbar_and_card_open_same_form init cardMERGE settled_init
              (or_intror (or_intror (or_introl eq_refl)))
              ltac:(discriminate)))).
Defined.

(** *** Leaving the state in which the mirror is broken *)

(** X12.  On a reachable page where the flag and the Form Host disagree, a
    further click on Home changes nothing, so the form stays on screen
    under the hero text; the back button returns to the menu and restores
    the agreement; and a navbar click on any form key shows that form and
    restores it too. *)
Theorem broken_mirror_exits (w : World) :
  reachable w -> ~ mirrored w ->
  step (select HOME) w = w /\
  (mirrored (step Back w) /\
   App_render (step Back w) = mkScreen true (GridMenu menuCards)) /\
  (forall k, k <> HOME ->
     mirrored (step (select k) w) /\
     exists c, selected (step (select k) w) = Some c /\ title c = key_name k).
Proof.
  intros R Hm. pose proof (reachable_settled w R) as Hs.
  assert (Hf : forceTitle w = None).
  { destruct (forceTitle w) eqn:E; [|reflexivity].
    exfalso. apply Hm. apply reachable_signal_mirror; [exact R|].
    rewrite E. discriminate. }
  assert (Ho : formOpen w = false).
  { pose proof (reachable_open_flag_has_form w R) as H.
    unfold mirrored in Hm. destruct (formOpen w); [|reflexivity].
    exfalso. apply Hm. now rewrite H. }
  split; [now apply navigate_home_idle|]. split.
  - rewrite step_back by exact Hs. split; reflexivity.
  - intros k Hk.
    destruct (navigate_new_signal k w Hs Hk) as (c & _ & Tc & Sc & Fo & _).
    + rewrite Hf. discriminate.
    + split; [|now exists c]. unfold mirrored, is_open. now rewrite Sc, Fo.
Qed.

Lemma broken_mirror_exits_witness :
  reachable (run [OpenDirect cardSPLIT; select HOME] init) /\
  ~ mirrored (run [OpenDirect cardSPLIT; select HOME] init) /\
  step (select HOME) (run [OpenDirect cardSPLIT; select HOME] init)
  = run [OpenDirect cardSPLIT; select HOME] init.
Proof.
  assert (R1 : reachable (step (OpenDirect cardSPLIT) init))
    by (apply reach_step; [apply reach_init | reflexivity]).
  assert (R2 : reachable (run [OpenDirect cardSPLIT; select HOME] init))
    by (apply (reach_step (select HOME)); [exact R1 | reflexivity]).
  assert (N : ~ mirrored (run [OpenDirect cardSPLIT; select HOME] init))
    by (vm_compute; discriminate).
  split; [exact R2|]. split; [exact N|].
  exact (proj1 (broken_mirror_exits _ R2 N)).
Defined.

(** *** Emissions per event *)

Lemma step_emits_at_most_once (e : event) (w : World) :
  settled w -> length (emissions (step e w)) <= S (length (emissions w)).
Proof.
  intros Hs. destruct e as [key|card|].
  - destruct (step_navigate_emits key w) as (l & -> & Hl).
    rewrite length_app. lia.
  - rewrite step_open_direct by exact Hs. simpl. rewrite length_app. simpl. lia.
  - rewrite step_back by exact Hs. simpl. rewrite length_app. simpl. lia.
Qed.

(** X13.  Started on the freshly mounted page, no sequence of clicks makes
    the Form Host call [onFormOpenChange] more often than there were
    clicks, and after each click one render settles the page: rendering
    again changes nothing.  The effect and the parent's flag cannot feed
    each other. *)
Theorem at_most_one_emission_per_click (es : list event) :
  length (emissions (run es init)) <= length es /\
  commit (run es init) = run es init.
Proof.
  split.
  - induction es as [|e es IH] using rev_ind; [simpl; lia|].
    rewrite run_snoc, length_app. simpl.
    pose proof (step_emits_at_most_once e (run es init)
                  (settled_run es init settled_init)).
    lia.
  - apply commit_settled, settled_run, settled_init.
Qed.

End PageFacts.

(* ------------------------------------------------------------------ *)
(** ** Further properties of the forms                                 *)
(* ------------------------------------------------------------------ *)
Section FormExtras.
Import Forms Page.
Local Open Scope list_scope.

Ltac by_form f :=
  destruct f as [[fi u er lo]|[u er lo]|[[f1|] [f2|] u er lo]|[[fi|] ra u er lo]];
  unfold on_submit, UploadForm.handleSubmit, DownloadForm.submit,
         MergeForm.submit, SplitForm.submit;
  cbn.

Lemma on_submit_fits (f : Form) (rq : request) :
  snd (on_submit f) = Some rq -> request_fits (kind_of f) rq = true.
Proof.
  by_form f; try (destruct fi; cbn); try (destruct (u =? "") eqn:Eu; cbn);
    try (destruct (ra =? "") eqn:Er; cbn); intros H; try discriminate H;
    injection H as <-; cbn; rewrite ?Eu, ?Er; reflexivity.
Qed.

Lemma run_fits (k : Kind) (es : list event) :
  Forall (fun q => request_fits k q = true) (pending (run es (mount k))) /\
  Forall (fun q => request_fits k q = true) (issued (run es (mount k))).
Proof.
  induction es as [|e es [IHp IHi]] using rev_ind.
  - split; constructor.
  - rewrite run_forms_snoc. pose proof (kind_run es k) as Hk.
    set (m := run es (mount k)) in *.
    destruct e as [|n v|v|r]; simpl; auto.
    + unfold click_submit. destruct (submit_disabled (form m)); [auto|].
      destruct (on_submit (form m)) as [f' [rq|]] eqn:E; simpl; [|auto].
      assert (F : request_fits k rq = true).
      { rewrite <- Hk. apply on_submit_fits. now rewrite E. }
      split; apply Forall_app; split; auto.
    + unfold settle. destruct (pending m) as [|q p] eqn:E;
        [rewrite E; now split|].
      destruct (on_settle q r (form m)); simpl.
      split; [now apply Forall_inv_tail in IHp | exact IHi].
Qed.

(** X7.  Every request a form ever issues is the call of its own
    operation, and it never carries an empty page range or an empty UUID:
    validation has let it through. *)
Theorem issued_requests_fit_form (k : Kind) (es : list event) :
  Forall (fun q => request_fits k q = true) (issued (run es (mount k))) /\
  (forall u, In (GetDownload u) (issued (run es (mount k))) -> u <> "") /\
  (forall f r, In (PostExtract f r) (issued (run es (mount k))) -> r <> "").
Proof.
  destruct (run_fits k es) as [_ H]. split; [exact H|].
  rewrite Forall_forall in H. split.
  - intros u Hi E. apply H in Hi. subst u. destruct k; discriminate.
  - intros f r Hi E. apply H in Hi. subst r. destruct k; discriminate.
Qed.

Lemma issued_requests_fit_form_witness :
  In (GetDownload "6f1c") (issued (run [TypeText "6f1c"; ClickSubmit] (mount KDownload)))
  /\ "6f1c" <> "".
Proof.
  split; [left; reflexivity|].
  exact (proj1 (proj2 (issued_requests_fit_form KDownload
                         [TypeText "6f1c"; ClickSubmit]))
               "6f1c" (or_introl eq_refl)).
Defined.

(** The [detail] the [catch] of a form can read: the three POST forms get
    the JSON body of the error response, the download form a Blob. *)
Lemma on_settle_rejected (q : request) (d : option string) (f : Form) :
  danger_alert (fst (on_settle q (Rejected d) f))
  = Some (or_else (match kind_of f with KDownload => None | _ => d end)
                  (fallback (kind_of f))).
Proof.
  destruct f as [s|s|s|s]; cbn;
    unfold UploadForm.danger_alert, MergeForm.danger_alert,
           SplitForm.danger_alert, DownloadForm.danger_alert; cbn;
    now rewrite ?alert_or_else by discriminate.
Qed.

(** X8.  When the request in flight is rejected, the danger alert of the
    upload, merge and split forms shows the [detail] of the error response
    when there is one and it is not empty, and the form's own fallback
    message when it is missing or empty; the download form, whose error
    body is a Blob, shows its fallback message whatever the response
    carries. *)
Theorem rejection_shows_detail_or_fallback
  (k : Kind) (es : list event) (q : request) (detail : option string) :
  pending (run es (mount k)) = [q] ->
  (k = KDownload ->
   danger_alert (form (step (Settle (Rejected detail)) (run es (mount k))))
   = Some (fallback KDownload)) /\
  (k <> KDownload ->
   danger_alert (form (step (Settle (Rejected detail)) (run es (mount k))))
   = Some (or_else detail (fallback k))) /\
  (k <> KDownload ->
   forall d, detail = Some d -> d <> "" ->
   danger_alert (form (step (Settle (Rejected detail)) (run es (mount k))))
   = Some d) /\
  (k <> KDownload ->
   detail = None \/ detail = Some "" ->
   danger_alert (form (step (Settle (Rejected detail)) (run es (mount k))))
   = Some (fallback k)).
Proof.
  intros Hp. pose proof (kind_run es k) as Hk.
  set (m := run es (mount k)) in *.
  assert (A : danger_alert (form (step (Settle (Rejected detail)) m))
              = Some (or_else (match k with KDownload => None | _ => detail end)
                              (fallback k))).
  { unfold step, settle. rewrite Hp.
    pose proof (on_settle_rejected q detail (form m)) as H.
    destruct (on_settle q (Rejected detail) (form m)); simpl in *.
    now rewrite <- Hk. }
  rewrite A. clear A. split; [|split; [|split]].
  - intros ->. reflexivity.
  - intros Hn. destruct k; try reflexivity. congruence.
  - intros Hn d -> Hd. apply String.eqb_neq in Hd.
    destruct k; try congruence; simpl; now rewrite Hd.
  - intros Hn [->| ->]; destruct k; try congruence; reflexivity.
Qed.

Lemma rejection_shows_detail_or_fallback_witness :
  (pending (run [TypeText "6f1c"; ClickSubmit] (mount KDownload))
   = [GetDownload "6f1c"] /\
   danger_alert
     (form (step (Settle (Rejected (Some "Arquivo não encontrado")))
              (run [TypeText "6f1c"; ClickSubmit] (mount KDownload))))
   = Some "UUID não encontrado") /\
  (pending (run [ChooseFile 0 (Some (mkFile "a.pdf")); ClickSubmit]
                (mount KUpload)) = [PostUpload (mkFile "a.pdf")] /\
   danger_alert
     (form (step (Settle (Rejected (Some "Arquivo não é PDF")))
              (run [ChooseFile 0 (Some (mkFile "a.pdf")); ClickSubmit]
                   (mount KUpload))))
   = Some "Arquivo não é PDF").
Proof.
  split; (split; [reflexivity|]).
  - exact (proj1 (rejection_shows_detail_or_fallback KDownload
                    [TypeText "6f1c"; ClickSubmit] (GetDownload "6f1c")
                    (Some "Arquivo não encontrado") eq_refl) eq_refl).
  - exact (proj1 (proj2 (proj2
             (rejection_shows_detail_or_fallback KUpload
                [ChooseFile 0 (Some (mkFile "a.pdf")); ClickSubmit]
                (PostUpload (mkFile "a.pdf")) (Some "Arquivo não é PDF")
                eq_refl)))
             ltac:(discriminate) "Arquivo não é PDF" eq_refl
             ltac:(discriminate)).
Defined.

(** *** The download's file name *)

Lemma typing_keeps_flight (vs : list string) (m : Mounted) :
  pending (run (map TypeText vs) m) = pending m /\
  saved (run (map TypeText vs) m) = saved m /\
  kind_of (form (run (map TypeText vs) m)) = kind_of (form m).
Proof.
  revert m. induction vs as [|v vs IH]; intros m; [auto|].
  change (run (map TypeText (v :: vs)) m)
    with (run (map TypeText vs) (step (TypeText v) m)).
  destruct (IH (step (TypeText v) m)) as (-> & -> & ->).
  simpl. destruct (inputs_keep_alerts (form m)) as [_ H].
  now destruct (H v) as (_ & _ & _ & ->).
Qed.

(** X9.  The request a download form has in flight asks for a UUID that is
    not empty, and when it succeeds the file offered to the user is named
    after that UUID, whatever was typed into the field in the meantime;
    when it is rejected no file is offered. *)
Theorem download_named_after_requested_uuid
  (es : list event) (q : request) (vs : list string) :
  pending (run es (mount KDownload)) = [q] ->
  exists u,
    q = GetDownload u /\ u <> "" /\
    (forall data,
       saved (step (Settle (Resolved data))
                (run (map TypeText vs) (run es (mount KDownload))))
       = saved (run es (mount KDownload)) ++ [(u ++ ".pdf")%string]) /\
    (forall detail,
       saved (step (Settle (Rejected detail))
                (run (map TypeText vs) (run es (mount KDownload))))
       = saved (run es (mount KDownload))).
Proof.
  intros Hp. destruct (run_fits KDownload es) as [Hf _].
  pose proof (kind_run es KDownload) as Hk.
  set (m := run es (mount KDownload)) in *.
  rewrite Hp in Hf. apply Forall_inv in Hf.
  destruct q as [f|a b|f r|u]; try discriminate Hf.
  exists u. split; [reflexivity|].
  split; [intros E; subst u; discriminate Hf|].
  destruct (typing_keeps_flight vs m) as (Tp & Ts & Tk).
  rewrite Hp in Tp. rewrite Hk in Tk.
  set (m' := run (map TypeText vs) m) in *.
  destruct (form m') as [s|s|s|s] eqn:Fm; try discriminate Tk.
  split; intros x; unfold step, settle; rewrite Tp, Fm; simpl;
    rewrite Ts; [reflexivity | apply app_nil_r].
Qed.

Lemma download_named_after_requested_uuid_witness :
  pending (run [TypeText "6f1c"; ClickSubmit] (mount KDownload))
  = [GetDownload "6f1c"] /\
  exists u,
    GetDownload "6f1c" = GetDownload u /\ u <> "" /\
    (forall data,
       saved (step (Settle (Resolved data))
                (run (map TypeText ["0"; "00"])
                   (run [TypeText "6f1c"; ClickSubmit] (mount KDownload))))
       = saved (run [TypeText "6f1c"; ClickSubmit] (mount KDownload))
         ++ [(u ++ ".pdf")%string]) /\
    (forall detail,
       saved (step (Settle (Rejected detail))
                (run (map TypeText ["0"; "00"])
                   (run [TypeText "6f1c"; ClickSubmit] (mount KDownload))))
       = saved (run [TypeText "6f1c"; ClickSubmit] (mount KDownload))).
Proof.
  split; [reflexivity|].
  exact (download_named_after_requested_uuid
           [TypeText "6f1c"; ClickSubmit] (GetDownload "6f1c") ["0"; "00"]
           eq_refl).
Defined.

(** *** After a response *)

(** X10.  Whatever a form has seen, once a response is delivered nothing
    is in flight and its submit button is enabled: success and failure
    both end in [setLoading(false)], so the user can always retry. *)
Theorem settlement_reenables_button (k : Kind) (es : list event) (r : response) :
  pending (run (es ++ [Settle r]) (mount k)) = [] /\
  submit_disabled (form (run (es ++ [Settle r]) (mount k))) = false.
Proof.
  destruct (steady_run (es ++ [Settle r]) (mount k) (steady_mount k))
    as (Hd & _ & _ & _).
  assert (P : pending (run (es ++ [Settle r]) (mount k)) = []).
  { rewrite run_forms_snoc.
    destruct (steady_run es (mount k) (steady_mount k)) as (_ & Hl & _ & _).
    set (m := run es (mount k)) in *.
    unfold step, settle. destruct (pending m) as [|q [|q' p]] eqn:E.
    - exact E.
    - now destruct (on_settle q r (form m)).
    - simpl in Hl. lia. }
  split; [exact P|]. now rewrite Hd, P.
Qed.

(** *** What a submission sends *)

(** X11.  On a form whose button is enabled, whatever it has seen before,
    filling the controls and clicking submit issues exactly one request,
    with the values just chosen: the upload sends the file; the merge sends
    the two files in the order of their controls; the split sends the file
    and the range typed, when it is not empty; the download asks for the
    UUID typed, when it is not empty. *)
Theorem submit_sends_latest_inputs (es : list event) :
  (forall f,
     submit_disabled (form (run es (mount KUpload))) = false ->
     issued (run [ChooseFile 0 (Some f); ClickSubmit] (run es (mount KUpload)))
     = issued (run es (mount KUpload)) ++ [PostUpload f]) /\
  (forall a b,
     submit_disabled (form (run es (mount KMerge))) = false ->
     issued (run [ChooseFile 0 (Some a); ChooseFile 1 (Some b); ClickSubmit]
                 (run es (mount KMerge)))
     = issued (run es (mount KMerge)) ++ [PostMerge a b]) /\
  (forall f r,
     r <> "" ->
     submit_disabled (form (run es (mount KSplit))) = false ->
     issued (run [ChooseFile 0 (Some f); TypeText r; ClickSubmit]
                 (run es (mount KSplit)))
     = issued (run es (mount KSplit)) ++ [PostExtract f r]) /\
  (forall u,
     u <> "" ->
     submit_disabled (form (run es (mount KDownload))) = false ->
     issued (run [TypeText u; ClickSubmit] (run es (mount KDownload)))
     = issued (run es (mount KDownload)) ++ [GetDownload u]).
Proof.
  split; [|split; [|split]].
  - intros f Hd. pose proof (kind_run es KUpload) as Hk.
    destruct (run es (mount KUpload)) as [[s|s|s|s] p i sv];
      try discriminate Hk.
    destruct s as [fi u er lo]. simpl in Hd. subst lo. reflexivity.
  - intros a b Hd. pose proof (kind_run es KMerge) as Hk.
    destruct (run es (mount KMerge)) as [[s|s|s|s] p i sv];
      try discriminate Hk.
    destruct s as [f1 f2 u er lo]. simpl in Hd. subst lo. reflexivity.
  - intros f r Hr Hd. pose proof (kind_run es KSplit) as Hk.
    destruct (run es (mount KSplit)) as [[s|s|s|s] p i sv];
      try discriminate Hk.
    destruct s as [fi ra u er lo]. simpl in Hd. subst lo.
    apply String.eqb_neq in Hr.
    unfold run, fold_left, step, click_submit; cbn.
    unfold SplitForm.submit; cbn. now rewrite Hr.
  - intros u Hu Hd. pose proof (kind_run es KDownload) as Hk.
    destruct (run es (mount KDownload)) as [[s|s|s|s] p i sv];
      try discriminate Hk.
    destruct s as [u0 er lo]. simpl in Hd. subst lo.
    apply String.eqb_neq in Hu.
    unfold run, fold_left, step, click_submit; cbn.
    unfold DownloadForm.submit; cbn. now rewrite Hu.
Qed.

Lemma submit_sends_latest_inputs_witness :
  submit_disabled
    (form (run [ChooseFile 0 (Some (mkFile "old.pdf")); ClickSubmit;
                Settle (Rejected None)] (mount KMerge))) = false /\
  issued (run [ChooseFile 0 (Some (mkFile "a.pdf"));
               ChooseFile 1 (Some (mkFile "b.pdf")); ClickSubmit]
              (run [ChooseFile 0 (Some (mkFile "old.pdf")); ClickSubmit;
                    Settle (Rejected None)] (mount KMerge)))
  = issued (run [ChooseFile 0 (Some (mkFile "old.pdf")); ClickSubmit;
                 Settle (Rejected None)] (mount KMerge))
    ++ [PostMerge (mkFile "a.pdf") (mkFile "b.pdf")].
Proof.
  split; [reflexivity|].
  exact (proj1 (proj2
           (submit_sends_latest_inputs
              [ChooseFile 0 (Some (mkFile "old.pdf")); ClickSubmit;
               Settle (Rejected None)]))
           (mkFile "a.pdf") (mkFile "b.pdf") eq_refl).
Defined.

End FormExtras.
